(** * CSV import and export of the inventory application

    A shallow embedding of the CSV layer of the application: the five
    parsers ([parseCSV], [parseComponentCSV], [parseAccessoryCSV],
    [parseVMCSV] of the import library and [parseCSVData] of the IAM
    accounts page), the four converters and the VM exporter
    [convertToCSV], followed by the properties of the written
    specification that concern them.

    JavaScript strings are modelled by [string]; a character stands for
    the UTF-16 code unit of the same number, so the model covers the
    code units U+0000 to U+00FF.  Objects built by assignment
    ([const vm: any = {}; vm.vmId = value]) are finite maps from property
    names to string values; a property that is absent reads as
    [undefined]. *)

From Stdlib Require Import Strings.String Strings.Ascii ZArith Lia Sorted.
From stdpp Require Import base option list strings gmap fin_maps pretty.

Local Open Scope string_scope.
Local Open Scope nat_scope.

(** ** Characters and strings *)

Module Js.

(** The characters that occur in the source text. *)
Definition comma : ascii := Ascii.ascii_of_nat 44.
Definition quote : ascii := Ascii.ascii_of_nat 34.
Definition newline : ascii := Ascii.ascii_of_nat 10.
Definition carriage_return : ascii := Ascii.ascii_of_nat 13.

(** The one-character string holding a double quote. *)
Definition dq : string := String quote EmptyString.
(** The one-character string holding a line feed. *)
Definition nl : string := String newline EmptyString.

(** [!s] on a string: the empty string is the only falsy one. *)
Definition is_empty (s : string) : bool :=
  match s with
  | EmptyString => true
  | String _ _ => false
  end.

(** White space and line terminators removed by [String.prototype.trim]:
    TAB, LF, VT, FF, CR, SPACE and NO-BREAK SPACE are the ones below
    U+0100. *)
Definition is_white_space (c : ascii) : bool :=
  let n := Ascii.nat_of_ascii c in
  (((9 <=? n) && (n <=? 13)) || (n =? 32) || (n =? 160))%nat.

(** Letters that [toLowerCase] changes: A-Z, and U+00C0-U+00DE without
    the multiplication sign U+00D7.  Each moves up by 32. *)
Definition is_upper (c : ascii) : bool :=
  let n := Ascii.nat_of_ascii c in
  (((65 <=? n) && (n <=? 90)) ||
   ((192 <=? n) && (n <=? 222) && negb (n =? 215)))%nat.

Definition lower_of (c : ascii) : ascii :=
  Ascii.ascii_of_nat (Ascii.nat_of_ascii c + 32).

Definition toLowerChar (c : ascii) : ascii :=
  if is_upper c then lower_of c else c.

Fixpoint toLowerCase (s : string) : string :=
  match s with
  | EmptyString => EmptyString
  | String c r => String (toLowerChar c) (toLowerCase r)
  end.

Fixpoint trimStart (s : string) : string :=
  match s with
  | EmptyString => EmptyString
  | String c r => if is_white_space c then trimStart r else s
  end.

Fixpoint trimEnd (s : string) : string :=
  match s with
  | EmptyString => EmptyString
  | String c r =>
      match trimEnd r with
      | EmptyString => if is_white_space c then EmptyString else String c EmptyString
      | r' => String c r'
      end
  end.

Definition trim (s : string) : string := trimEnd (trimStart s).

(** [s.split(sep)] for a one-character separator: never the empty list,
    and [[s]] when the separator does not occur. *)
Fixpoint split (sep : ascii) (s : string) : list string :=
  match s with
  | EmptyString => [EmptyString]
  | String c r =>
      if Ascii.eqb c sep then EmptyString :: split sep r
      else match split sep r with
           | x :: xs => String c x :: xs
           | [] => [String c EmptyString]
           end
  end.

(** [parts.join(sep)] for a one-character separator. *)
Fixpoint join (sep : ascii) (parts : list string) : string :=
  match parts with
  | [] => EmptyString
  | [x] => x
  | x :: rest => x +:+ String sep (join sep rest)
  end.

(** [s.includes(c)] for a one-character needle. *)
Fixpoint includes_char (c : ascii) (s : string) : bool :=
  match s with
  | EmptyString => false
  | String d r => Ascii.eqb d c || includes_char c r
  end.

(** [s.includes(sub)]. *)
Fixpoint includes (sub s : string) : bool :=
  String.prefix sub s ||
  match s with
  | EmptyString => false
  | String _ r => includes sub r
  end.

(** The global replacement applied by the exporters to a value that
    needs quoting: every double quote of [s] is doubled. *)
Fixpoint double_quotes (s : string) : string :=
  match s with
  | EmptyString => EmptyString
  | String c r =>
      if Ascii.eqb c quote then String quote (String quote (double_quotes r))
      else String c (double_quotes r)
  end.

(** The dot of a regular expression without the [s] flag matches every
    code unit but the line terminators LF and CR (and U+2028, U+2029,
    which lie outside the model). *)
Definition is_line_terminator (c : ascii) : bool :=
  Ascii.eqb c newline || Ascii.eqb c carriage_return.

Fixpoint all_dot (s : string) : bool :=
  match s with
  | EmptyString => true
  | String c r => negb (is_line_terminator c) && all_dot r
  end.

(** [strip_last s] is [Some m] when [s] is [m] followed by a double
    quote. *)
Fixpoint strip_last (s : string) : option string :=
  match s with
  | EmptyString => None
  | String c EmptyString => if Ascii.eqb c quote then Some EmptyString else None
  | String c r => String c <$> strip_last r
  end.

(** The replacement commented [// Remove quotes] in the source: the
    pattern is anchored at both ends and reads a double quote, then a
    greedy group of dots, then a double quote, and the match is replaced
    by its group.  When the whole of [s] is a double quote, a run of characters
    without line terminators, and a double quote, the result is the run;
    otherwise [s] is returned as it is. *)
Definition unquote (s : string) : string :=
  match s with
  | String c r =>
      if Ascii.eqb c quote then
        match strip_last r with
        | Some m => if all_dot m then m else s
        | None => s
        end
      else s
  | EmptyString => s
  end.

(** [a || b] where [a] is a string or [undefined]. *)
Definition or_else (a : option string) (b : string) : string :=
  match a with
  | Some s => if is_empty s then b else s
  | None => b
  end.

(** [a || null] where [a] is a string or [undefined]. *)
Definition or_null (a : option string) : option string :=
  match a with
  | Some s => if is_empty s then None else Some s
  | None => None
  end.

(** Truthiness of a string or [undefined]. *)
Definition truthy (a : option string) : bool :=
  match a with
  | Some s => negb (is_empty s)
  | None => false
  end.

(** [list.includes(x)] on an array of strings. *)
Definition array_includes (l : list string) (x : string) : bool :=
  existsb (String.eqb x) l.

End Js.

Import Js.

(** ** Thrown errors and results *)

(** The errors thrown by the parsers, one constructor per [throw] of the
    source, carrying the numbers and strings interpolated into its
    message. *)
Inductive Error : Type :=
  | NoDataRow
  | MissingHeaders (missing : list string)
  | ColumnCount (line values columns : nat)
  | MissingValues (line : nat)
  | MissingVMFields (line : nat) (vmId vmName hypervisor : option string)
  | NoValidVM.

(** Interpolation of a value that may be [undefined]. *)
Definition show (a : option string) : string := default "undefined" a.

(** The text of [error.message]. *)
Definition message (e : Error) : string :=
  match e with
  | NoDataRow => "CSV file must contain at least a header row and one data row"
  | MissingHeaders missing =>
      "CSV file is missing required headers: " +:+
      foldr (λ h rest, match rest with
                       | EmptyString => h
                       | _ => h +:+ ", " +:+ rest
                       end) EmptyString missing
  | ColumnCount line values columns =>
      "Line " +:+ pretty line +:+ " has " +:+ pretty values +:+
      " values, but header has " +:+ pretty columns +:+ " columns"
  | MissingValues line =>
      "Line " +:+ pretty line +:+ " is missing required values"
  | MissingVMFields line vmId vmName hypervisor =>
      "Line " +:+ pretty line +:+ ": Missing required field(s). vmId: " +:+
      dq +:+ show vmId +:+ dq +:+ ", vmName: " +:+
      dq +:+ show vmName +:+ dq +:+ ", hypervisor: " +:+
      dq +:+ show hypervisor +:+ dq
  | NoValidVM => "No valid VM records found in CSV file"
  end.

(** The line a thrown error names, when it names one. *)
Definition line_of (e : Error) : option nat :=
  match e with
  | ColumnCount line _ _ | MissingValues line | MissingVMFields line _ _ _ =>
      Some line
  | NoDataRow | MissingHeaders _ | NoValidVM => None
  end.

(** A call either returns a value or throws. *)
Inductive result (A : Type) : Type :=
  | Ok (a : A)
  | Throw (e : Error).
Arguments Ok {A} a.
Arguments Throw {A} e.

#[global] Instance result_ret : MRet result := λ A a, Ok a.
#[global] Instance result_bind : MBind result := λ A B f r,
  match r with
  | Ok a => f a
  | Throw e => Throw e
  end.
#[global] Instance result_fmap : FMap result := λ A B f r,
  match r with
  | Ok a => Ok (f a)
  | Throw e => Throw e
  end.

Definition returns {A} (r : result A) : bool :=
  match r with
  | Ok _ => true
  | Throw _ => false
  end.

(** ** Objects built by assignment *)

(** An object of type [any] whose properties are strings. *)
Abbreviation obj := (gmap string string).

(** [o.key]: the property, or [undefined]. *)
Definition get (key : string) (o : obj) : option string := o !! key.

(** [o.key = v] where [v] is a string or [undefined]; a property holding
    [undefined] reads like an absent one. *)
Definition set (key : string) (v : option string) (o : obj) : obj :=
  match v with
  | Some s => <[key := s]> o
  | None => delete key o
  end.

(** [headers.forEach((header, index) => ...)], the body acting on the
    state [st] that the callback closes over. *)
Fixpoint forEach {St : Type} (body : string → nat → St → St)
    (l : list string) (index : nat) (st : St) : St :=
  match l with
  | [] => st
  | header :: rest => forEach body rest (S index) (body header index st)
  end.

(** A [switch (header)] all of whose cases assign to one property of the
    object under construction is written as the table of its cases: the
    labels of each case and the property it assigns.  The first case
    with a matching label is taken; [None] is the [default] case. *)
Definition cases := list (list string * string).

Fixpoint switch (table : cases) (header : string) : option string :=
  match table with
  | [] => None
  | (labels, property) :: rest =>
      if array_includes labels header then Some property
      else switch rest header
  end.

(** [lines[0]]; the array returned by [split] is never empty. *)
Definition first_line (lines : list string) : string :=
  default EmptyString (lines !! 0).

(** [line.split(',').map(header => header.trim().toLowerCase())] *)
Definition parse_headers (line : string) : list string :=
  map (λ header, toLowerCase (trim header)) (split comma line).

(** ** The asset parser [parseCSV] *)

Module Asset.

(** The cases of the header switch of [parseCSV].  The label
    [purchaseDate] is written with a capital in the source; headers are
    lower-cased before the switch, so it is never taken. *)
Definition header_cases : cases :=
  [ (["knoxid"; "knox_id"; "knox id"], "knoxId");
    (["serialnumber"; "serial_number"; "serial number"; "serial"], "serialNumber");
    (["assettag"; "asset tag"; "asset_tag"; "tag"], "assetTag");
    (["name"; "asset name"; "asset_name"; "devicename"; "device_name";
      "device name"], "name");
    (["category"; "type"; "device type"; "device_type"], "category");
    (["status"; "state"], "status");
    (["condition"; "asset_condition"; "asset condition"], "condition");
    (["model"; "model_number"; "model number"], "model");
    (["manufacturer"; "brand"; "make"; "vendor"], "manufacturer");
    (["purchasedate"; "purchaseDate"; "purchase_date"; "purchase date";
      "acquired_date"; "acquired date"; "dateacquired"; "date_acquired"],
     "purchaseDate");
    (["purchasecost"; "purchase_cost"; "purchase cost"; "cost"; "price";
      "value"], "purchaseCost");
    (["location"; "site"; "office"; "building"; "room"], "location");
    (["ipaddress"; "ip address"; "ip_address"; "ip"], "ipAddress");
    (["macaddress"; "mac address"; "mac_address"; "mac"], "macAddress");
    (["ostype"; "os type"; "os_type"; "os"; "operating_system";
      "operating system"], "osType");
    (["department"; "dept"; "division"; "unit"], "department");
    (["description"; "notes"; "comments"; "remarks"], "description");
    (["warranty"; "warranty_date"; "warranty date"; "warranty_expiry";
      "warranty expiry"], "warranty");
    (["supplier"; "vendor_name"; "vendor name"], "supplier") ].

(** [asset[header] = value] of the default case.  Assigning a string to
    the key [__proto__] of a plain object goes to the inherited setter,
    which ignores values that are not objects: no property is created. *)
Definition set_custom (header value : string) (asset : obj) : obj :=
  if String.eqb header "__proto__" then asset else <[header := value]> asset.

(** [value.trim()] followed by the removal of the quotes. *)
Definition cell (value : string) : string := unquote (trim value).

(** [while (values.length < headers.length) values.push('')] *)
Definition pad (columns : nat) (values : list string) : list string :=
  values ++ replicate (columns - length values) EmptyString.

(** [if (values.length > headers.length) values.splice(headers.length)] *)
Definition truncate (columns : nat) (values : list string) : list string :=
  if (columns <? length values)%nat then take columns values else values.

(** The values of a data line, brought to the length of the header. *)
Definition row_values (columns : nat) (line : string) : list string :=
  truncate columns (pad columns (map cell (split comma line))).

(** A cell that the callback skips: falsy, empty or the text [N/A]. *)
Definition skipped (value : string) : bool :=
  is_empty value || String.eqb value "N/A".

(** The callback of [headers.forEach]; its state is the asset under
    construction and the flag [hasAnyData]. *)
Definition assign (values : list string) (header : string) (index : nat)
    (st : obj * bool) : obj * bool :=
  match values !! index with
  | None => st
  | Some value =>
      if skipped value then st
      else
        match switch header_cases header with
        | Some property => (<[property := value]> st.1, true)
        | None => (set_custom header value st.1, true)
        end
  end.

(** The loop over the data lines; [acc] is the array [assets]. *)
Fixpoint rows (headers : list string) (lines : list string) (acc : list obj)
    : list obj :=
  match lines with
  | [] => acc
  | line :: rest =>
      if is_empty (trim line) then rows headers rest acc
      else
        let values := row_values (length headers) line in
        let '(asset, hasAnyData) := forEach (assign values) headers 0 (∅, false) in
        if hasAnyData then rows headers rest (acc ++ [asset])
        else rows headers rest acc
  end.

Definition parseCSV (csvContent : string) : result (list obj) :=
  let lines := split newline csvContent in
  if (length lines <? 2)%nat then Throw NoDataRow
  else
    let headers := parse_headers (first_line lines) in
    Ok (rows headers (drop 1 lines) []).

End Asset.

(** ** The parsers that reject a malformed row *)

(** [parseComponentCSV], [parseAccessoryCSV] and [parseVMCSV] are the
    same text but for the required headers, the header switch and the
    check of the finished object.  [Strict] holds that text once. *)
Module Strict.
Section Parser.

(** [requiredHeaders] *)
Variable required : list string.
(** The cases of the header switch; its default case ignores the
    header. *)
Variable header_cases : cases.
(** The validation of the object built from a row: the error thrown
    for the line with the given number, if any. *)
Variable check : nat → obj → option Error.

(** The callback of [headers.forEach]: [o.property = values[index]]. *)
Definition assign (values : list string) (header : string) (index : nat)
    (o : obj) : obj :=
  match switch header_cases header with
  | Some property => set property (values !! index) o
  | None => o
  end.

(** The object built from the values of one row. *)
Definition build (headers values : list string) : obj :=
  forEach (assign values) headers 0 ∅.

(** [lines[i].split(',').map(value => value.trim())] *)
Definition row_values (line : string) : list string :=
  map trim (split comma line).

(** The loop [for (let i = 1; i < lines.length; i++)] from index [i]
    on; [lines] holds [lines[i]], [lines[i+1]], ... and [acc] is the
    array of the objects pushed so far. *)
Fixpoint rows (headers : list string) (i : nat) (lines : list string)
    (acc : list obj) : result (list obj) :=
  match lines with
  | [] => Ok acc
  | line :: rest =>
      if is_empty (trim line) then rows headers (S i) rest acc
      else
        let values := row_values line in
        if negb (length values =? length headers)%nat then
          Throw (ColumnCount (i + 1) (length values) (length headers))
        else
          let o := build headers values in
          match check (i + 1) o with
          | Some e => Throw e
          | None => rows headers (S i) rest (acc ++ [o])
          end
  end.

Definition parse (csvContent : string) : result (list obj) :=
  let lines := split newline csvContent in
  if (length lines <? 2)%nat then Throw NoDataRow
  else
    let headers := parse_headers (first_line lines) in
    let missingHeaders :=
      List.filter (λ header, negb (array_includes headers header)) required in
    if (0 <? length missingHeaders)%nat then Throw (MissingHeaders missingHeaders)
    else rows headers 1 (drop 1 lines) [].

End Parser.
End Strict.

Module Component.

Definition required : list string := ["name"; "category"].

Definition header_cases : cases :=
  [ (["name"], "name");
    (["category"], "category");
    (["quantity"], "quantity");
    (["serialnumber"; "serial number"; "serial_number"], "serialNumber");
    (["manufacturer"], "manufacturer");
    (["model"], "model");
    (["notes"], "notes") ].

(** [if (!component.name || !component.category) throw ...] *)
Definition check (line : nat) (component : obj) : option Error :=
  if negb (truthy (get "name" component)) || negb (truthy (get "category" component))
  then Some (MissingValues line) else None.

Definition parseComponentCSV : string → result (list obj) :=
  Strict.parse required header_cases check.

End Component.

Module Accessory.

Definition required : list string := ["name"; "category"].

Definition header_cases : cases :=
  [ (["name"], "name");
    (["category"], "category");
    (["status"], "status");
    (["quantity"], "quantity");
    (["serialnumber"; "serial number"; "serial_number"], "serialNumber");
    (["manufacturer"], "manufacturer");
    (["model"], "model");
    (["notes"], "notes") ].

(** [if (!accessory.name || !accessory.category) throw ...] *)
Definition check (line : nat) (accessory : obj) : option Error :=
  if negb (truthy (get "name" accessory)) || negb (truthy (get "category" accessory))
  then Some (MissingValues line) else None.

Definition parseAccessoryCSV : string → result (list obj) :=
  Strict.parse required header_cases check.

End Accessory.

Module VM.

Definition required : list string := ["vmid"; "vmname"; "hypervisor"].

Definition header_cases : cases :=
  [ (["vmid"; "vm_id"; "vm id"], "vmId");
    (["vmname"; "vm_name"; "vm name"; "name"], "vmName");
    (["vmstatus"; "vm_status"; "vm status"; "status"], "vmStatus");
    (["vmip"; "vm_ip"; "vm ip"; "ip"; "ipaddress"; "ip_address"], "vmIp");
    (["internetaccess"; "internet_access"; "internet access"; "internet"],
     "internetAccess");
    (["vmos"; "vm_os"; "vm os"; "os"; "operating_system"], "vmOs");
    (["vmosversion"; "vm_os_version"; "vm os version"; "os_version";
      "osversion"], "vmOsVersion");
    (["hypervisor"], "hypervisor");
    (["hostname"; "host_name"; "host name"], "hostname");
    (["hostmodel"; "host_model"; "host model"; "model"], "hostModel");
    (["hostip"; "host_ip"; "host ip"], "hostIp");
    (["hostos"; "host_os"; "host os"], "hostOs");
    (["rack"], "rack");
    (["deployedby"; "deployed_by"; "deployed by"], "deployedBy");
    (["user"], "user");
    (["department"], "department");
    (["startdate"; "start_date"; "start date"], "startDate");
    (["enddate"; "end_date"; "end date"], "endDate");
    (["jiraticket"; "jira_ticket"; "jira ticket"; "ticket"], "jiraTicket");
    (["remarks"; "notes"; "description"], "remarks") ].

(** [if (!vm.vmId || !vm.vmName || !vm.hypervisor) throw ...] *)
Definition check (line : nat) (vm : obj) : option Error :=
  if negb (truthy (get "vmId" vm)) || negb (truthy (get "vmName" vm))
     || negb (truthy (get "hypervisor" vm))
  then Some (MissingVMFields line (get "vmId" vm) (get "vmName" vm)
                             (get "hypervisor" vm))
  else None.

Definition parseVMCSV (csvContent : string) : result (list obj) :=
  vms ← Strict.parse required header_cases check csvContent;
  if (length vms =? 0)%nat then Throw NoValidVM else Ok vms.

End VM.

(** ** The IAM parser [parseCSVData] *)

Module IAM.

(** The status values of the account type. *)
Definition statusTypes : list string :=
  ["active"; "expired"; "extended"; "access_removed"].

(** The cases of the header switch but its last, [status]; the switch
    has no default case. *)
Definition header_cases : cases :=
  [ (["requestor"], "requestor");
    (["knoxid"; "knox_id"; "knox id"], "knoxId");
    (["permission"; "permission/iam/scop"], "permission");
    (["durationstartdate"; "duration_start_date"; "duration start date"],
     "durationStartDate");
    (["durationenddate"; "duration_end_date"; "duration end date"],
     "durationEndDate");
    (["cloudplatform"; "cloud_platform"; "cloud platform"], "cloudPlatform");
    (["projectaccounts"; "project_accounts"; "project accounts"],
     "projectAccounts");
    (["approvalid"; "approval_id"; "approval id"], "approvalId");
    (["remarks"; "notes"], "remarks") ].

(** The removal of the quotes followed by [trim()]. *)
Definition cell (v : string) : string := trim (unquote v).

(** The callback of [headers.forEach], with
    [const value = values[index] || ''] at its head. *)
Definition assign (values : list string) (header : string) (index : nat)
    (account : obj) : obj :=
  let value := or_else (values !! index) EmptyString in
  match switch header_cases header with
  | Some property => <[property := value]> account
  | None =>
      if String.eqb header "status"
      then <["status" := or_else (Some value) "active"]> account
      else account
  end.

(** [account.requestor && account.knoxId && account.permission &&
    account.cloudPlatform] *)
Definition complete (account : obj) : bool :=
  truthy (get "requestor" account) && truthy (get "knoxId" account)
  && truthy (get "permission" account) && truthy (get "cloudPlatform" account).

(** The account built from one trimmed, non-empty line. *)
Definition build (headers : list string) (line : string) : obj :=
  let values := map cell (split comma line) in
  forEach (assign values) headers 0 {["status" := "active"]}.

Fixpoint rows (headers : list string) (lines : list string) (acc : list obj)
    : list obj :=
  match lines with
  | [] => acc
  | raw :: rest =>
      let line := trim raw in
      if is_empty line then rows headers rest acc
      else
        let account := build headers line in
        if complete account then rows headers rest (acc ++ [account])
        else rows headers rest acc
  end.

Definition parseCSVData (csvContent : string) : result (list obj) :=
  let lines := split newline csvContent in
  if (length lines <? 2)%nat then Throw NoDataRow
  else
    let headers := parse_headers (first_line lines) in
    Ok (rows headers (drop 1 lines) []).

End IAM.

(** ** The converters *)

(** The value of a quantity: [NaN] or an integer. *)
Inductive number : Type :=
  | NaN
  | Int (z : Z).

Module Convert.

Record InsertAsset : Type := {
  asset_assetTag : option string;
  asset_name : option string;
  asset_serialNumber : string;
  asset_category : string;
  asset_status : string;
  asset_condition : string;
  asset_model : option string;
  asset_purchaseDate : option string;
  asset_manufacturer : option string;
  asset_purchaseCost : option string;
  asset_location : option string;
  asset_knoxId : option string;
  asset_ipAddress : option string;
  asset_macAddress : option string;
  asset_osType : option string;
  asset_department : option string;
  asset_notes : option string }.

Record InsertComponent : Type := {
  component_name : option string;
  component_category : option string;
  component_description : option string;
  component_purchaseDate : option string;
  component_purchaseCost : option string;
  component_location : option string;
  component_serialNumber : option string;
  component_model : option string;
  component_manufacturer : option string;
  component_notes : string;
  component_quantity : number }.

Record InsertAccessory (AccessoryStatus : Type) : Type := {
  accessory_name : option string;
  accessory_category : option string;
  accessory_status : AccessoryStatus;
  accessory_description : option string;
  accessory_purchaseDate : option string;
  accessory_purchaseCost : option string;
  accessory_location : option string;
  accessory_serialNumber : option string;
  accessory_model : option string;
  accessory_manufacturer : option string;
  accessory_notes : string;
  accessory_quantity : number;
  accessory_assignedTo : option string }.
Arguments accessory_name {_} _.
Arguments accessory_category {_} _.
Arguments accessory_status {_} _.
Arguments accessory_notes {_} _.
Arguments accessory_quantity {_} _.

(** [Omit<VirtualMachine, "id">] *)
Record NewVirtualMachine : Type := {
  vmId : string;
  vmName : string;
  vmStatus : string;
  vmIp : string;
  internetAccess : bool;
  vmOs : string;
  vmOsVersion : string;
  hypervisor : string;
  hostname : string;
  hostModel : string;
  hostIp : string;
  hostOs : string;
  rack : string;
  deployedBy : string;
  user : string;
  department : string;
  startDate : string;
  endDate : string;
  jiraTicket : string;
  remarks : string;
  dateDeleted : option string }.

(** [VirtualMachine]: the fields above and the [id]. *)
Record VirtualMachine : Type := {
  id : Z;
  fields : NewVirtualMachine }.

Section Schema.

(** The import of the schema module is not part of the sources: the
    members of its enumerations that the converters name, and the
    builtin [parseInt], are parameters. *)
Variable AssetStatus_AVAILABLE : string.
Variable AccessoryStatus : Type.
Variables AVAILABLE BORROWED RETURNED DEFECTIVE : AccessoryStatus.
Variable parseInt : string → number.

(** The condition of an asset: [Good] unless the CSV gives one. *)
Definition condition_of (csvAsset : obj) : string :=
  match get "condition" csvAsset with
  | Some c =>
      if negb (is_empty c) && negb (String.eqb (trim c) EmptyString) then
        let conditionValue := trim c in
        let l := toLowerCase conditionValue in
        if String.eqb l "bad" || String.eqb l "poor" || String.eqb l "damaged"
        then "Bad"
        else if String.eqb l "good" || String.eqb l "excellent"
                || String.eqb l "working"
        then "Good"
        else conditionValue
      else "Good"
  | None => "Good"
  end.

Definition convertCSVToAsset (csvAsset : obj) : InsertAsset :=
  {| asset_assetTag := or_null (get "assetTag" csvAsset);
     asset_name := or_null (get "name" csvAsset);
     asset_serialNumber := or_else (get "serialNumber" csvAsset) EmptyString;
     asset_category := or_else (get "category" csvAsset) "Laptop";
     asset_status := or_else (get "status" csvAsset) AssetStatus_AVAILABLE;
     asset_condition := condition_of csvAsset;
     asset_model := or_null (get "model" csvAsset);
     asset_purchaseDate := or_null (get "purchaseDate" csvAsset);
     asset_manufacturer := or_null (get "manufacturer" csvAsset);
     asset_purchaseCost := or_null (get "purchaseCost" csvAsset);
     asset_location := or_null (get "location" csvAsset);
     asset_knoxId := or_null (get "knoxId" csvAsset);
     asset_ipAddress := or_null (get "ipAddress" csvAsset);
     asset_macAddress := or_null (get "macAddress" csvAsset);
     asset_osType := or_null (get "osType" csvAsset);
     asset_department := or_null (get "department" csvAsset);
     asset_notes := or_null (get "notes" csvAsset) |}.

(** The argument is an array by its type, so the guard
    [!Array.isArray(csvAssets)] never throws. *)
Definition convertCSVToAssets (csvAssets : list obj) : list InsertAsset :=
  map convertCSVToAsset csvAssets.

(** [csv.quantity ? parseInt(csv.quantity) : 1] *)
Definition quantity_of (csv : obj) : number :=
  match get "quantity" csv with
  | Some q => if is_empty q then Int 1 else parseInt q
  | None => Int 1
  end.

Definition convertCSVToComponent (csvComponent : obj) : InsertComponent :=
  let quantity := quantity_of csvComponent in
  {| component_name := get "name" csvComponent;
     component_category := get "category" csvComponent;
     component_description := None;
     component_purchaseDate := None;
     component_purchaseCost := None;
     component_location := None;
     component_serialNumber := or_null (get "serialNumber" csvComponent);
     component_model := or_null (get "model" csvComponent);
     component_manufacturer := or_null (get "manufacturer" csvComponent);
     component_notes := or_else (get "notes" csvComponent) "Imported via CSV";
     component_quantity := quantity |}.

Definition convertCSVToComponents (csvComponents : list obj)
    : list InsertComponent :=
  map convertCSVToComponent csvComponents.

(** The status of an accessory: [AVAILABLE] unless the text of the
    CSV contains one of three words. *)
Definition status_of (csvAccessory : obj) : AccessoryStatus :=
  match get "status" csvAccessory with
  | Some s =>
      if is_empty s then AVAILABLE
      else
        let statusLower := toLowerCase s in
        if includes "borrowed" statusLower then BORROWED
        else if includes "returned" statusLower then RETURNED
        else if includes "defective" statusLower then DEFECTIVE
        else AVAILABLE
  | None => AVAILABLE
  end.

Definition convertCSVToAccessory (csvAccessory : obj)
    : InsertAccessory AccessoryStatus :=
  let quantity := quantity_of csvAccessory in
  {| accessory_name := get "name" csvAccessory;
     accessory_category := get "category" csvAccessory;
     accessory_status := status_of csvAccessory;
     accessory_description := None;
     accessory_purchaseDate := None;
     accessory_purchaseCost := None;
     accessory_location := None;
     accessory_serialNumber := or_null (get "serialNumber" csvAccessory);
     accessory_model := or_null (get "model" csvAccessory);
     accessory_manufacturer := or_null (get "manufacturer" csvAccessory);
     accessory_notes := or_else (get "notes" csvAccessory) "Imported via CSV";
     accessory_quantity := quantity;
     accessory_assignedTo := None |}.

Definition convertCSVToAccessories (csvAccessories : list obj)
    : list (InsertAccessory AccessoryStatus) :=
  map convertCSVToAccessory csvAccessories.

End Schema.

(** The coercion of the [internetAccess] text to a boolean. *)
Definition internet_access_of (csvVM : obj) : bool :=
  match get "internetAccess" csvVM with
  | Some s =>
      if is_empty s then false
      else
        let accessValue := toLowerCase s in
        String.eqb accessValue "true" || String.eqb accessValue "yes"
        || String.eqb accessValue "1"
  | None => false
  end.

Definition convertCSVToVM (csvVM : obj) : NewVirtualMachine :=
  let internetAccess := internet_access_of csvVM in
  {| vmId := or_else (get "vmId" csvVM) "N/A";
     vmName := or_else (get "vmName" csvVM) "N/A";
     vmStatus := or_else (get "vmStatus" csvVM) "Provisioning";
     vmIp := or_else (get "vmIp" csvVM) "N/A";
     internetAccess := internetAccess;
     vmOs := or_else (get "vmOs" csvVM) "N/A";
     vmOsVersion := or_else (get "vmOsVersion" csvVM) "N/A";
     hypervisor := or_else (get "hypervisor" csvVM) "N/A";
     hostname := or_else (get "hostname" csvVM) "N/A";
     hostModel := or_else (get "hostModel" csvVM) "N/A";
     hostIp := or_else (get "hostIp" csvVM) "N/A";
     hostOs := or_else (get "hostOs" csvVM) "N/A";
     rack := or_else (get "rack" csvVM) "N/A";
     deployedBy := or_else (get "deployedBy" csvVM) "N/A";
     user := or_else (get "user" csvVM) "N/A";
     department := or_else (get "department" csvVM) "N/A";
     startDate := or_else (get "startDate" csvVM) "N/A";
     endDate := or_else (get "endDate" csvVM) "N/A";
     jiraTicket := or_else (get "jiraTicket" csvVM) "N/A";
     remarks := or_else (get "remarks" csvVM) "N/A";
     dateDeleted := None |}.

Definition convertCSVToVMs (csvVMs : list obj) : list NewVirtualMachine :=
  map convertCSVToVM csvVMs.

(** ** The VM exporter [convertToCSV] *)

Definition export_headers : list string :=
  [ "vmId"; "vmName"; "vmStatus"; "vmIp"; "internetAccess"; "vmOs";
    "vmOsVersion"; "hypervisor"; "hostname"; "hostModel"; "hostIp";
    "hostOs"; "rack"; "deployedBy"; "user"; "department"; "startDate";
    "endDate"; "jiraTicket"; "remarks" ].

(** The string-valued properties of a VM that the exporter can read. *)
Definition string_property (header : string)
    : option (NewVirtualMachine → string) :=
  snd <$> List.find (λ p, String.eqb header p.1)
    [ ("vmId", vmId); ("vmName", vmName); ("vmStatus", vmStatus);
      ("vmIp", vmIp); ("vmOs", vmOs); ("vmOsVersion", vmOsVersion);
      ("hypervisor", hypervisor); ("hostname", hostname);
      ("hostModel", hostModel); ("hostIp", hostIp); ("hostOs", hostOs);
      ("rack", rack); ("deployedBy", deployedBy); ("user", user);
      ("department", department); ("startDate", startDate);
      ("endDate", endDate); ("jiraTicket", jiraTicket);
      ("remarks", remarks) ].

(** [vm[header]] as the text it is exported with: the boolean
    [internetAccess] is written [true] or [false]. *)
Definition property_text (vm : VirtualMachine) (header : string)
    : option string :=
  if String.eqb header "internetAccess"
  then Some (if internetAccess (fields vm) then "true" else "false")
  else (λ read, read (fields vm)) <$> string_property header.

(** A value holding a comma or a double quote is wrapped in double
    quotes, its own double quotes doubled. *)
Definition escape (value : string) : string :=
  if includes_char comma value || includes_char quote value
  then dq +:+ double_quotes value +:+ dq
  else value.

(** The callback of [headers.map], ending in [return value || '']. *)
Definition export_cell (vm : VirtualMachine) (header : string) : string :=
  or_else (escape <$> property_text vm header) EmptyString.

Definition export_row (vm : VirtualMachine) : string :=
  join comma (map (export_cell vm) export_headers).

Definition convertToCSV (vms : list VirtualMachine) : string :=
  if (length vms =? 0)%nat then EmptyString
  else join newline (join comma export_headers :: map export_row vms).

End Convert.

(** ** Reading a file and preparing an import *)

Module FileImport.
Import Convert.

(** A file chosen by the user: its name, and the text that the file
    reader delivers, [None] when reading fails. *)
Record File : Type := {
  file_name : string;
  file_text : option string }.

(** The errors of [parseFile], one for each of its messages. *)
Inductive FileError : Type :=
  | ReadFailed
  | ExcelNotSupported
  | UnsupportedFormat.

Definition dot : ascii := Ascii.ascii_of_nat 46.

(** [file.name.toLowerCase().split('.').pop()] *)
Definition fileExtension (name : string) : option string :=
  last (split dot (toLowerCase name)).

Definition parseFile (file : File) : FileError + string :=
  let extension := fileExtension (file_name file) in
  if bool_decide (extension = Some "csv") then
    match file_text file with
    | Some text => inr text
    | None => inl ReadFailed
    end
  else if bool_decide (extension = Some "xlsx")
          || bool_decide (extension = Some "xls")
  then inl ExcelNotSupported
  else inl UnsupportedFormat.

(** The four kinds of import. *)
Inductive ImportType : Type :=
  | assets
  | components
  | accessories
  | vms.

(** What stops an import before anything is sent. *)
Inductive ImportError : Type :=
  | FileFailed (e : FileError)
  | ParseFailed (e : Error)
  | NoValidData.

Section Schema.
Variable AssetStatus_AVAILABLE : string.
Variable AccessoryStatus : Type.
Variables AVAILABLE BORROWED RETURNED DEFECTIVE : AccessoryStatus.
Variable parseInt : string → number.

(** The array [data] that is sent to the server. *)
Inductive Data : Type :=
  | AssetData (records : list InsertAsset)
  | ComponentData (records : list InsertComponent)
  | AccessoryData (records : list (InsertAccessory AccessoryStatus))
  | VMData (records : list NewVirtualMachine).

(** [data.length] *)
Definition data_length (data : Data) : nat :=
  match data with
  | AssetData records => length records
  | ComponentData records => length records
  | AccessoryData records => length records
  | VMData records => length records
  end.

(** The [switch (importType)] of [importDataFromFile]. *)
Definition convert (importType : ImportType) (csvContent : string)
    : result Data :=
  match importType with
  | assets =>
      csvAssets ← Asset.parseCSV csvContent;
      Ok (AssetData (convertCSVToAssets AssetStatus_AVAILABLE csvAssets))
  | components =>
      csvComponents ← Component.parseComponentCSV csvContent;
      Ok (ComponentData (convertCSVToComponents parseInt csvComponents))
  | accessories =>
      csvAccessories ← Accessory.parseAccessoryCSV csvContent;
      Ok (AccessoryData
            (convertCSVToAccessories AccessoryStatus AVAILABLE BORROWED
               RETURNED DEFECTIVE parseInt csvAccessories))
  | vms =>
      csvVMs ← VM.parseVMCSV csvContent;
      Ok (VMData (convertCSVToVMs csvVMs))
  end.

(** [importDataFromFile] up to the request: the data that is posted to
    the import route of [importType], or the error thrown before.  The
    request itself and its answer are not modelled. *)
Definition importDataFromFile (file : File) (importType : ImportType)
    : ImportError + Data :=
  match parseFile file with
  | inl e => inl (FileFailed e)
  | inr csvContent =>
      match convert importType csvContent with
      | Throw e => inl (ParseFailed e)
      | Ok data =>
          if data_length data =? 0 then inl NoValidData else inr data
      end
  end.

End Schema.
End FileImport.

(** ** The IAM accounts page: filters, pages and export *)

Module IAMPage.

Record IAMAccount : Type := {
  id : Z;
  requestor : string;
  knoxId : string;
  permission : string;
  durationStartDate : option string;
  durationEndDate : option string;
  cloudPlatform : string;
  projectAccounts : option string;
  approvalId : option string;
  remarks : option string;
  status : string;
  createdAt : string;
  updatedAt : string }.

(** The filters of the page, [all] standing for no filter. *)
Record Filters : Type := {
  searchTerm : string;
  statusFilter : string;
  platformFilter : string;
  projectAccountFilter : string }.

(** [field?.toLowerCase().includes(searchTerm.toLowerCase())] *)
Definition found_in (term : string) (field : option string) : bool :=
  match field with
  | Some text => includes (toLowerCase term) (toLowerCase text)
  | None => false
  end.

(** The callback of [iamAccounts.filter]. *)
Definition matches (f : Filters) (account : IAMAccount) : bool :=
  let matchesSearch :=
    is_empty (searchTerm f)
    || found_in (searchTerm f) (Some (requestor account))
    || found_in (searchTerm f) (Some (knoxId account))
    || found_in (searchTerm f) (approvalId account)
    || found_in (searchTerm f) (Some (cloudPlatform account))
    || found_in (searchTerm f) (projectAccounts account) in
  let matchesStatus :=
    String.eqb (statusFilter f) "all"
    || String.eqb (status account) (statusFilter f) in
  let matchesPlatform :=
    String.eqb (platformFilter f) "all"
    || String.eqb (cloudPlatform account) (platformFilter f) in
  let matchesProjectAccount :=
    String.eqb (projectAccountFilter f) "all"
    || bool_decide (projectAccounts account = Some (projectAccountFilter f)) in
  matchesSearch && matchesStatus && matchesPlatform && matchesProjectAccount.

Definition filteredAccounts (f : Filters) (iamAccounts : list IAMAccount)
    : list IAMAccount :=
  List.filter (matches f) iamAccounts.

(** [Math.ceil(totalItems / itemsPerPage)] for a positive
    [itemsPerPage]; the quotient of the source is a double, exact for
    the sizes a page can hold. *)
Definition totalPages (totalItems itemsPerPage : Z) : Z :=
  (- ((- totalItems) / itemsPerPage))%Z.

(** [list.slice(start, end)]: a negative bound counts from the end. *)
Definition slice {A : Type} (start finish : Z) (l : list A) : list A :=
  let len := Z.of_nat (length l) in
  let clamp (k : Z) := (if k <? 0 then Z.max (len + k) 0 else Z.min k len)%Z in
  let from := clamp start in
  let to := clamp finish in
  take (Z.to_nat (to - from)) (drop (Z.to_nat from) l).

Definition paginatedAccounts {A : Type} (currentPage itemsPerPage : Z)
    (filtered : list A) : list A :=
  let startIndex := ((currentPage - 1) * itemsPerPage)%Z in
  let endIndex := (startIndex + itemsPerPage)%Z in
  slice startIndex endIndex filtered.

(** An entry of the page bar: a page number or the ellipsis. *)
Inductive PageItem : Type :=
  | Page (number : Z)
  | Ellipsis.

#[global] Instance PageItem_eq_dec : EqDecision PageItem.
Proof. solve_decision. Defined.

(** [for (let i = first; i <= last; i++) pages.push(i)] *)
Definition pushed (first last : Z) : list PageItem :=
  Page <$> seqZ first (last - first + 1).

(** The array [pages] before it is filtered. *)
Definition pages_listed (totalPages currentPage : Z) : list PageItem :=
  if (totalPages <=? 5)%Z then pushed 1 totalPages
  else
    ([Page 1]
     ++ (if (3 <? currentPage)%Z then [Ellipsis] else [])
     ++ pushed (Z.max 2 (currentPage - 1))
               (Z.min (totalPages - 1) (currentPage + 1))
     ++ (if (currentPage <? totalPages - 2)%Z then [Ellipsis] else [])
     ++ [Page totalPages])%list.

(** [self.indexOf(page)] *)
Fixpoint indexOf (self : list PageItem) (page : PageItem) : option nat :=
  match self with
  | [] => None
  | item :: rest =>
      if bool_decide (item = page) then Some 0
      else S <$> indexOf rest page
  end.

(** The callback of the final [filter]: an ellipsis is kept unless the
    entry before it is one, a number when it is its first occurrence. *)
Definition kept_page (self : list PageItem) (index : nat) (page : PageItem)
    : bool :=
  match page with
  | Ellipsis =>
      (index =? 0) || negb (bool_decide (self !! (index - 1) = Some Ellipsis))
  | Page _ => bool_decide (indexOf self page = Some index)
  end.

(** [self.filter((page, index, self) => ...)] from [index] on. *)
Fixpoint filter_from (self : list PageItem) (index : nat)
    (rest : list PageItem) : list PageItem :=
  match rest with
  | [] => []
  | page :: rest' =>
      if kept_page self index page
      then page :: filter_from self (S index) rest'
      else filter_from self (S index) rest'
  end.

Definition generatePageNumbers (totalPages currentPage : Z) : list PageItem :=
  let pages := pages_listed totalPages currentPage in
  filter_from pages 0 pages.

(** The header row of the exported file. *)
Definition csvHeaders : list string :=
  [ "Requestor"; "Knox ID"; "Permission/IAM/SCOP"; "Duration Start Date";
    "Duration End Date"; "Cloud Platform"; "Project Accounts";
    "Approval ID"; "Remarks"; "Status" ].

(** The cells of an account, [field || ''] each. *)
Definition csvRow (account : IAMAccount) : list string :=
  [ or_else (Some (requestor account)) EmptyString;
    or_else (Some (knoxId account)) EmptyString;
    or_else (Some (permission account)) EmptyString;
    or_else (durationStartDate account) EmptyString;
    or_else (durationEndDate account) EmptyString;
    or_else (Some (cloudPlatform account)) EmptyString;
    or_else (projectAccounts account) EmptyString;
    or_else (approvalId account) EmptyString;
    or_else (remarks account) EmptyString;
    or_else (Some (status account)) EmptyString ].

(** The text [csvContent] of [handleExportCSV], [None] when there is
    nothing to export and the page only shows a notice.  A cell is
    quoted as in the VM exporter. *)
Definition exportCSV (filtered : list IAMAccount) : option string :=
  if length filtered =? 0 then None
  else Some (join newline
               (join comma csvHeaders ::
                map (λ account, join comma (map Convert.escape (csvRow account)))
                    filtered)).

End IAMPage.

(** * Properties *)

(** ** Facts about the string operations *)

Module JsFacts.

Lemma split_not_nil sep s : split sep s ≠ [].
Proof.
  destruct s as [|c r]; simpl; [done|].
  destruct (Ascii.eqb c sep); [done|]. by destruct (split sep r).
Qed.

Lemma split_length_pos sep s : 1 ≤ length (split sep s).
Proof.
  pose proof (split_not_nil sep s). destruct (split sep s); simpl; [done|lia].
Qed.

Lemma append_nil_l s : EmptyString +:+ s = s.
Proof. done. Qed.

Lemma append_cons c r s : String c r +:+ s = String c (r +:+ s).
Proof. done. Qed.

Lemma is_empty_true s : is_empty s = true ↔ s = EmptyString.
Proof. by destruct s. Qed.

Lemma is_empty_false s : is_empty s = false ↔ s ≠ EmptyString.
Proof. by destruct s. Qed.

Lemma truthy_Some a : truthy a = true ↔ ∃ s, a = Some s ∧ s ≠ EmptyString.
Proof.
  destruct a as [[|c r]|]; simpl;
    (split; [intros ?|intros (s & ? & ?)]); simplify_eq; try done.
  by eexists.
Qed.

End JsFacts.

(** ** The header row is required *)

Module HeaderRow.
Import JsFacts.

Section Strict.
Variable required : list string.
Variable header_cases : cases.
Variable check : nat → obj → option Error.
(** The check of a finished object throws errors that name its line. *)
Hypothesis check_names_line :
  ∀ line o e, check line o = Some e → line_of e = Some line.

Lemma rows_error_names_a_line headers i lines acc e :
  Strict.rows header_cases check headers i lines acc = Throw e →
  is_Some (line_of e).
Proof.
  revert i acc. induction lines as [|line rest IH]; intros i acc; simpl; [done|].
  destruct (is_empty (trim line)); [by apply IH|].
  destruct (negb _).
  - intros [= <-]. by eexists.
  - destruct (check (i + 1) _) as [e'|] eqn:Hc.
    + intros [= <-]. erewrite check_names_line by done. by eexists.
    + by apply IH.
Qed.

Lemma parse_no_data_row csv :
  Strict.parse required header_cases check csv = Throw NoDataRow ↔
  length (split newline csv) < 2.
Proof.
  unfold Strict.parse.
  destruct (length (split newline csv) <? 2)%nat eqn:Hlen.
  - apply Nat.ltb_lt in Hlen. done.
  - apply Nat.ltb_ge in Hlen. split; [|lia].
    destruct (0 <? _)%nat; [done|].
    intros He%rows_error_names_a_line. by destruct He.
Qed.
End Strict.

Lemma component_check_names_line line o e :
  Component.check line o = Some e → line_of e = Some line.
Proof. unfold Component.check. destruct (_ || _); by intros [= <-]. Qed.

Lemma accessory_check_names_line line o e :
  Accessory.check line o = Some e → line_of e = Some line.
Proof. unfold Accessory.check. destruct (_ || _); by intros [= <-]. Qed.

Lemma vm_check_names_line line o e :
  VM.check line o = Some e → line_of e = Some line.
Proof. unfold VM.check. destruct (_ || _); by intros [= <-]. Qed.

(** C3.  A header row is required.  Each of the five parsers throws the
    error [CSV file must contain at least a header row and one data row]
    exactly on the inputs that, split on the line feed, give fewer than
    two lines: on such an input every parser throws it, and on an input
    with two lines or more no parser does. *)
Theorem header_row_required (csvContent : string) :
  (Asset.parseCSV csvContent = Throw NoDataRow
     ↔ length (split newline csvContent) < 2) ∧
  (Component.parseComponentCSV csvContent = Throw NoDataRow
     ↔ length (split newline csvContent) < 2) ∧
  (Accessory.parseAccessoryCSV csvContent = Throw NoDataRow
     ↔ length (split newline csvContent) < 2) ∧
  (VM.parseVMCSV csvContent = Throw NoDataRow
     ↔ length (split newline csvContent) < 2) ∧
  (IAM.parseCSVData csvContent = Throw NoDataRow
     ↔ length (split newline csvContent) < 2).
Proof.
  split_and!.
  - unfold Asset.parseCSV.
    destruct (length (split newline csvContent) <? 2)%nat eqn:Hlen.
    + by apply Nat.ltb_lt in Hlen.
    + apply Nat.ltb_ge in Hlen. split; [done|lia].
  - apply parse_no_data_row, component_check_names_line.
  - apply parse_no_data_row, accessory_check_names_line.
  - unfold VM.parseVMCSV.
    rewrite <- (parse_no_data_row VM.required VM.header_cases VM.check)
      by apply vm_check_names_line.
    destruct (Strict.parse _ _ _ _) as [vms|e]; simpl; [|done].
    destruct (length vms =? 0)%nat; done.
  - unfold IAM.parseCSVData.
    destruct (length (split newline csvContent) <? 2)%nat eqn:Hlen.
    + by apply Nat.ltb_lt in Hlen.
    + apply Nat.ltb_ge in Hlen. split; [done|lia].
Qed.

(** The theorem at a file of one line and at a file of two. *)
Lemma header_row_required_witness :
  VM.parseVMCSV "vmid,vmname,hypervisor" = Throw NoDataRow ∧
  Asset.parseCSV ("name" +:+ nl +:+ "a") ≠ Throw NoDataRow.
Proof.
  split.
  - apply (header_row_required "vmid,vmname,hypervisor"). vm_compute. lia.
  - intros H. apply (header_row_required ("name" +:+ nl +:+ "a")) in H.
    vm_compute in H. lia.
Defined.

End HeaderRow.

(** ** Required fields *)

Module RequiredFields.
Import JsFacts.

(** The property [key] of [o] is a non-empty string. *)
Definition present (key : string) (o : obj) : Prop :=
  ∃ s, get key o = Some s ∧ s ≠ EmptyString.

Lemma truthy_present key o : truthy (get key o) = true ↔ present key o.
Proof. apply truthy_Some. Qed.

Section Strict.
Variable required : list string.
Variable header_cases : cases.
Variable check : nat → obj → option Error.
Variable P : obj → Prop.
(** An object that passes the check has the property [P]. *)
Hypothesis check_passed : ∀ line o, check line o = None → P o.

Lemma rows_all headers i lines acc res :
  Forall P acc →
  Strict.rows header_cases check headers i lines acc = Ok res →
  Forall P res.
Proof.
  revert i acc. induction lines as [|line rest IH]; intros i acc Hacc; simpl.
  - by intros [= <-].
  - destruct (is_empty (trim line)); [by apply IH|].
    destruct (negb _); [done|].
    destruct (check (i + 1) _) eqn:Hc; [done|].
    apply IH, Forall_app. split; [done|].
    apply Forall_singleton. by eapply check_passed.
Qed.

Lemma parse_all csv res :
  Strict.parse required header_cases check csv = Ok res → Forall P res.
Proof.
  unfold Strict.parse.
  destruct (length (split newline csv) <? 2); [done|].
  destruct (0 <? _); [done|].
  by apply rows_all.
Qed.
End Strict.

Lemma iam_rows_all headers lines acc :
  Forall (λ a, IAM.complete a = true) acc →
  Forall (λ a, IAM.complete a = true) (IAM.rows headers lines acc).
Proof.
  revert acc. induction lines as [|raw rest IH]; intros acc Hacc; simpl; [done|].
  destruct (is_empty (trim raw)); [by apply IH|].
  destruct (IAM.complete _) eqn:Hc; [|by apply IH].
  apply IH, Forall_app. split; [done|]. by apply Forall_singleton.
Qed.

(** C4.  Required fields are present in every import result.  Every
    account returned by [parseCSVData] has a non-empty requestor,
    knoxId, permission and cloudPlatform; every record returned by
    [parseComponentCSV] or [parseAccessoryCSV] has a non-empty name and
    category; every record returned by [parseVMCSV] has a non-empty
    vmId, vmName and hypervisor. *)
Theorem required_fields_present (csvContent : string) (records : list obj) :
  (IAM.parseCSVData csvContent = Ok records →
   Forall (λ account, present "requestor" account ∧ present "knoxId" account ∧
                      present "permission" account ∧
                      present "cloudPlatform" account) records) ∧
  (Component.parseComponentCSV csvContent = Ok records →
   Forall (λ component, present "name" component ∧
                        present "category" component) records) ∧
  (Accessory.parseAccessoryCSV csvContent = Ok records →
   Forall (λ accessory, present "name" accessory ∧
                        present "category" accessory) records) ∧
  (VM.parseVMCSV csvContent = Ok records →
   Forall (λ vm, present "vmId" vm ∧ present "vmName" vm ∧
                 present "hypervisor" vm) records).
Proof.
  split_and!.
  - unfold IAM.parseCSVData.
    destruct (length (split newline csvContent) <? 2); [done|].
    intros [= <-].
    eapply Forall_impl; [by apply iam_rows_all|].
    intros a. unfold IAM.complete.
    rewrite !andb_true_iff, !truthy_present. tauto.
  - apply parse_all. intros line o. unfold Component.check.
    destruct (_ || _) eqn:H; [done|]. intros _.
    apply orb_false_iff in H as [H1 H2].
    apply negb_false_iff in H1, H2. by rewrite <- !truthy_present.
  - apply parse_all. intros line o. unfold Accessory.check.
    destruct (_ || _) eqn:H; [done|]. intros _.
    apply orb_false_iff in H as [H1 H2].
    apply negb_false_iff in H1, H2. by rewrite <- !truthy_present.
  - unfold VM.parseVMCSV.
    destruct (Strict.parse _ _ _ _) as [vms|e] eqn:Hp; simpl; [|done].
    destruct (length vms =? 0); [done|]. intros [= <-].
    revert Hp. apply parse_all. intros line o. unfold VM.check.
    destruct (_ || _) eqn:H; [done|]. intros _.
    apply orb_false_iff in H as [[H1 H2]%orb_false_iff H3].
    apply negb_false_iff in H1, H2, H3. by rewrite <- !truthy_present.
Qed.

(** A file for each of the four parsers. *)
Definition component_file : string :=
  "Name,Category,Quantity" +:+ nl +:+ "Fan,Cooling,2" +:+ nl +:+ "SSD,Storage,".
Definition vm_file : string :=
  "vmId,vmName,hypervisor,Status" +:+ nl +:+ "vm-1,build,esx-3,Running".
Definition iam_file : string :=
  "requestor,knoxId,permission,cloudPlatform" +:+ nl +:+
  "kim,k100,read,aws" +:+ nl +:+ "lee,,write,gcp".

Lemma required_fields_present_witness :
  (∃ accounts,
     IAM.parseCSVData iam_file = Ok accounts ∧ length accounts = 1 ∧
     Forall (λ account, present "requestor" account ∧ present "knoxId" account ∧
                        present "permission" account ∧
                        present "cloudPlatform" account) accounts) ∧
  (∃ components,
     Component.parseComponentCSV component_file = Ok components ∧
     length components = 2 ∧
     Forall (λ component, present "name" component ∧
                          present "category" component) components) ∧
  (∃ accessories,
     Accessory.parseAccessoryCSV component_file = Ok accessories ∧
     length accessories = 2 ∧
     Forall (λ accessory, present "name" accessory ∧
                          present "category" accessory) accessories) ∧
  (∃ vms,
     VM.parseVMCSV vm_file = Ok vms ∧ length vms = 1 ∧
     Forall (λ vm, present "vmId" vm ∧ present "vmName" vm ∧
                   present "hypervisor" vm) vms).
Proof.
  split_and!; eexists; (split; [reflexivity|]); (split; [reflexivity|]).
  - by apply (required_fields_present iam_file).
  - by apply (required_fields_present component_file).
  - by apply (required_fields_present component_file).
  - by apply (required_fields_present vm_file).
Defined.

End RequiredFields.

(** ** The converters: coercion, defaults and status values *)

Module Converters.
Import JsFacts Convert.

Lemma Forall2_map_intro {A B} (R : A → B → Prop) (f : A → B) (l : list A) :
  (∀ x, R x (f x)) → Forall2 R l (map f l).
Proof. intros HR. induction l; simpl; by constructor. Qed.

Lemma toLowerCase_empty s : toLowerCase s = EmptyString → s = EmptyString.
Proof. by destruct s. Qed.

(** The three spellings that are read as [true]. *)
Definition affirmative (s : string) : Prop :=
  toLowerCase s = "true" ∨ toLowerCase s = "yes" ∨ toLowerCase s = "1".

Lemma internet_access_of_true csvVM :
  internet_access_of csvVM = true ↔
  ∃ s, get "internetAccess" csvVM = Some s ∧ affirmative s.
Proof.
  unfold internet_access_of, affirmative.
  destruct (get "internetAccess" csvVM) as [s|].
  2: { split; [done|]. by intros (s & [=] & _). }
  destruct (is_empty s) eqn:He.
  - apply is_empty_true in He as ->. split; [done|].
    intros (s & [= <-] & [H|[H|H]]); discriminate H.
  - rewrite !orb_true_iff, !String.eqb_eq. split.
    + intros H. exists s. tauto.
    + intros (s' & [= <-] & H). tauto.
Qed.

(** C8.  String-boolean coercion.  For every list of CSV VM records,
    each converted record has [internetAccess] true if and only if the
    [internetAccess] string of its source record is present and its
    lower-cased value is exactly [true], [yes] or [1]; a missing field
    and every other value give false. *)
Theorem internet_access_coercion (csvVMs : list obj) :
  Forall2 (λ csvVM vm,
             internetAccess vm = true ↔
             ∃ s, get "internetAccess" csvVM = Some s ∧ affirmative s)
          csvVMs (convertCSVToVMs csvVMs).
Proof. apply Forall2_map_intro. intros csvVM. apply internet_access_of_true. Qed.

(** The fields of a converted VM that read [N/A] when the CSV has no
    value for them, each with the property of the CSV record it is
    taken from. *)
Definition not_available_fields : list (string * (NewVirtualMachine → string)) :=
  [ ("vmId", vmId); ("vmName", vmName); ("vmIp", vmIp); ("vmOs", vmOs);
    ("vmOsVersion", vmOsVersion); ("hypervisor", hypervisor);
    ("hostname", hostname); ("hostModel", hostModel); ("hostIp", hostIp);
    ("hostOs", hostOs); ("rack", rack); ("deployedBy", deployedBy);
    ("user", user); ("department", department); ("startDate", startDate);
    ("endDate", endDate); ("jiraTicket", jiraTicket); ("remarks", remarks) ].

(** A VM file without a status column. *)
Definition vm_file : string :=
  "vmId,vmName,hypervisor" +:+ nl +:+ "vm-1,build,esx-3".

(** C7, as stated, fails: [vmStatus] is an optional string field of the
    CSV record, and when it is missing the converted VM has the status
    [Provisioning], not [N/A]. *)
Lemma vm_status_default_counterexample :
  ∃ csvVM,
    VM.parseVMCSV vm_file = Ok [csvVM] ∧
    get "vmStatus" csvVM = None ∧
    vmStatus <$> convertCSVToVMs [csvVM] = ["Provisioning"] ∧
    "Provisioning" ≠ "N/A".
Proof. eexists. split; [reflexivity|]. split_and!; [reflexivity..|done]. Qed.

Section Schema.
Variable AssetStatus_AVAILABLE : string.
Variable AccessoryStatus : Type.
Variables AVAILABLE BORROWED RETURNED DEFECTIVE : AccessoryStatus.
Variable parseInt : string → number.

Lemma quantity_of_spec csv :
  (∀ q, get "quantity" csv = Some q → q ≠ EmptyString →
        quantity_of parseInt csv = parseInt q) ∧
  (truthy (get "quantity" csv) = false → quantity_of parseInt csv = Int 1).
Proof.
  unfold quantity_of. destruct (get "quantity" csv) as [[|c r]|]; simpl.
  - split; [|done]. by intros q [= <-].
  - split; [|done]. by intros q [= <-].
  - done.
Qed.

(** C7, amended.  Defaults substituted by the converters.  The
    quantity of a converted component or accessory is the integer
    parse of the quantity string when that is present and not empty,
    and 1 when it is absent or empty.  A converted VM has [N/A] in
    every string field for which the CSV record has no value, but for
    [vmStatus], which defaults to [Provisioning], and
    [internetAccess], which defaults to false.  A converted asset has
    the category [Laptop], the status [AssetStatus.AVAILABLE] and the
    condition [Good] when the CSV record has none. *)
Theorem converters_defaults :
  (∀ csvComponents,
     Forall2 (λ csv component,
                (∀ q, get "quantity" csv = Some q → q ≠ EmptyString →
                      component_quantity component = parseInt q) ∧
                (truthy (get "quantity" csv) = false →
                 component_quantity component = Int 1))
             csvComponents (convertCSVToComponents parseInt csvComponents)) ∧
  (∀ csvAccessories,
     Forall2 (λ csv accessory,
                (∀ q, get "quantity" csv = Some q → q ≠ EmptyString →
                      accessory_quantity accessory = parseInt q) ∧
                (truthy (get "quantity" csv) = false →
                 accessory_quantity accessory = Int 1))
             csvAccessories
             (convertCSVToAccessories AccessoryStatus AVAILABLE BORROWED
                RETURNED DEFECTIVE parseInt csvAccessories)) ∧
  (∀ csvVMs,
     Forall2 (λ csv vm,
                Forall (λ field, truthy (get field.1 csv) = false →
                                 field.2 vm = "N/A") not_available_fields ∧
                (truthy (get "vmStatus" csv) = false →
                 vmStatus vm = "Provisioning") ∧
                (truthy (get "internetAccess" csv) = false →
                 internetAccess vm = false))
             csvVMs (convertCSVToVMs csvVMs)) ∧
  (∀ csvAssets,
     Forall2 (λ csv asset,
                (truthy (get "category" csv) = false →
                 asset_category asset = "Laptop") ∧
                (truthy (get "status" csv) = false →
                 asset_status asset = AssetStatus_AVAILABLE) ∧
                (truthy (get "condition" csv) = false →
                 asset_condition asset = "Good"))
             csvAssets (convertCSVToAssets AssetStatus_AVAILABLE csvAssets)).
Proof.
  assert (Hor : ∀ a d, truthy a = false → or_else a d = d).
  { intros [[|c r]|] d; simpl; done. }
  split_and!; intros l; apply Forall2_map_intro; intros csv; simpl.
  - apply quantity_of_spec.
  - apply quantity_of_spec.
  - split_and!.
    + unfold not_available_fields. repeat constructor; simpl; apply Hor.
    + apply Hor.
    + unfold internet_access_of.
      by destruct (get "internetAccess" csv) as [[|c r]|].
  - split_and!; [apply Hor|apply Hor|].
    unfold condition_of. by destruct (get "condition" csv) as [[|c r]|].
Qed.

End Schema.

(** What [parseInt] returns on a text that starts with decimal digits:
    the number they spell. *)
Fixpoint decimal_prefix (s : string) (read : option Z) : option Z :=
  match s with
  | EmptyString => read
  | String c r =>
      let n := Ascii.nat_of_ascii c in
      if (48 <=? n) && (n <=? 57)
      then decimal_prefix r (Some (10 * default 0 read + Z.of_nat (n - 48)))%Z
      else read
  end.

Definition parse_decimal (s : string) : number :=
  from_option Int NaN (decimal_prefix s None).

(** The theorem at a component with a quantity and one without, at a VM
    of a file without optional columns, and at an asset holding a
    serial number only. *)
Lemma converters_defaults_witness :
  let fan : obj := {[ "name" := "Fan"; "category" := "Cooling"; "quantity" := "12" ]} in
  let ssd : obj := {[ "name" := "SSD"; "category" := "Storage" ]} in
  let vm : obj := {[ "vmId" := "vm-1"; "vmName" := "build"; "hypervisor" := "esx-3" ]} in
  let asset : obj := {[ "serialNumber" := "SN-7" ]} in
  component_quantity <$> convertCSVToComponents parse_decimal [fan; ssd]
    = [Int 12; Int 1] ∧
  rack <$> convertCSVToVMs [vm] = ["N/A"] ∧
  vmStatus <$> convertCSVToVMs [vm] = ["Provisioning"] ∧
  asset_category <$> convertCSVToAssets "available" [asset] = ["Laptop"].
Proof.
  intros fan ssd vm asset.
  destruct (converters_defaults "available" string "available" "borrowed"
              "returned" "defective" parse_decimal) as (Hc & _ & Hv & Ha).
  specialize (Hc [fan; ssd]). specialize (Hv [vm]). specialize (Ha [asset]).
  simpl in Hc, Hv, Ha.
  apply Forall2_cons in Hc as [[Hfan _] [[_ Hssd] _]%Forall2_cons].
  apply Forall2_cons in Hv as [(Hna & Hst & _) _].
  apply Forall2_cons in Ha as [(Hcat & _) _].
  split_and!.
  - change (component_quantity <$> _) with
      [component_quantity (convertCSVToComponent parse_decimal fan);
       component_quantity (convertCSVToComponent parse_decimal ssd)].
    by rewrite (Hfan "12"), Hssd.
  - change (rack <$> _) with [rack (convertCSVToVM vm)].
    apply (Forall_lookup_1 _ _ 10 ("rack", rack)) in Hna; [|done].
    cbn [fst snd] in Hna. by rewrite Hna.
  - change (vmStatus <$> _) with [vmStatus (convertCSVToVM vm)].
    by rewrite Hst.
  - change (asset_category <$> _) with
      [asset_category (convertCSVToAsset "available" asset)].
    by rewrite Hcat.
Defined.

End Converters.

(** ** Status values of imported records *)

Module StatusValues.
Import JsFacts Convert.

Lemma iam_switch_not_status header property :
  switch IAM.header_cases header = Some property → property ≠ "status".
Proof.
  unfold IAM.header_cases. cbn [switch].
  repeat (destruct (array_includes _ header); [by intros [= <-]|]). done.
Qed.

(** The status that the parser gives a row: the text of the cell under
    the last header [status] when that cell is not empty, and [active]
    otherwise, also when no header is [status]. *)
Definition status_of_row (headers values : list string) (s : string) : Prop :=
  (∃ i, headers !! i = Some "status" ∧
        (∀ j, i < j → headers !! j ≠ Some "status") ∧
        s = or_else (values !! i) "active") ∨
  ((∀ i, headers !! i ≠ Some "status") ∧ s = "active").

Lemma or_else_twice a :
  or_else (Some (or_else a EmptyString)) "active" = or_else a "active".
Proof. by destruct a as [[|c r]|]. Qed.

Lemma or_else_active a : or_else a "active" ≠ EmptyString.
Proof. by destruct a as [[|c r]|]. Qed.

(** One header of the row: the status changes under the header
    [status] only. *)
Lemma iam_assign_status (values : list string) header index account s :
  get "status" account = Some s →
  get "status" (IAM.assign values header index account) =
  Some (if String.eqb header "status"
        then or_else (values !! index) "active" else s).
Proof.
  intros Hs. unfold IAM.assign, get in *.
  destruct (String.eqb header "status") eqn:Hh.
  - apply String.eqb_eq in Hh as ->.
    change (switch IAM.header_cases "status") with (@None string).
    cbn [String.eqb Ascii.eqb Bool.eqb]. rewrite lookup_insert_eq.
    by rewrite or_else_twice.
  - destruct (switch IAM.header_cases header) as [property|] eqn:Hsw; [|done].
    apply iam_switch_not_status in Hsw. by rewrite lookup_insert_ne.
Qed.

Lemma iam_forEach_status (values : list string) headers index account s0 :
  get "status" account = Some s0 →
  ∃ s, get "status" (forEach (IAM.assign values) headers index account) = Some s ∧
       ((∃ k, headers !! k = Some "status" ∧
              (∀ j, k < j → headers !! j ≠ Some "status") ∧
              s = or_else (values !! (index + k)) "active") ∨
        ((∀ k, headers !! k ≠ Some "status") ∧ s = s0)).
Proof.
  revert index account s0.
  induction headers as [|header rest IH]; intros index account s0 Hs; cbn [forEach].
  - exists s0. split; [done|]. right. by split.
  - pose proof (iam_assign_status values header index account s0 Hs) as Hstep.
    destruct (IH (S index) _ _ Hstep) as (s & Hfinal & Hcases).
    exists s. split; [done|].
    destruct Hcases as [(k & Hk & Hlater & ->)|[Hnone ->]].
    + left. exists (S k). split_and!; [done| |f_equal; f_equal; lia].
      intros [|j] Hj; [lia|]. apply Hlater. lia.
    + destruct (String.eqb header "status") eqn:Hh.
      * apply String.eqb_eq in Hh as ->. left. exists 0.
        split_and!; [done| |by rewrite Nat.add_0_r].
        intros [|j] Hj; [lia|]. apply Hnone.
      * right. split; [|done]. intros [|k]; [|apply Hnone].
        cbn. intros [= ->]. by rewrite String.eqb_refl in Hh.
Qed.

Lemma iam_build_status headers line :
  ∃ s, get "status" (IAM.build headers line) = Some s ∧ s ≠ EmptyString ∧
       status_of_row headers (map IAM.cell (split comma line)) s.
Proof.
  unfold IAM.build.
  destruct (iam_forEach_status (map IAM.cell (split comma line)) headers 0
              {["status" := "active"]} "active") as (s & Hs & Hcases).
  { unfold get. by rewrite lookup_singleton_eq. }
  exists s. split; [done|].
  destruct Hcases as [(k & Hk & Hlater & ->)|[Hnone ->]].
  - split; [apply or_else_active|]. left. by exists k.
  - split; [done|]. by right.
Qed.

(** A returned account, traced to its own line of the file: it is the
    account built from a data line that is not empty, and its status is
    the one of that row. *)
Definition status_in (headers lines : list string) (account : obj) : Prop :=
  ∃ raw s,
    raw ∈ lines ∧ is_empty (trim raw) = false ∧
    account = IAM.build headers (trim raw) ∧
    get "status" account = Some s ∧ s ≠ EmptyString ∧
    status_of_row headers (map IAM.cell (split comma (trim raw))) s.

Lemma iam_rows_status all headers lines acc :
  lines ⊆ all →
  Forall (status_in headers all) acc →
  Forall (status_in headers all) (IAM.rows headers lines acc).
Proof.
  revert acc. induction lines as [|raw rest IH]; intros acc Hsub Hacc; simpl; [done|].
  assert (rest ⊆ all) by (intros x Hx; apply Hsub; by right).
  destruct (is_empty (trim raw)) eqn:Hempty; [by apply IH|].
  destruct (IAM.complete _); [|by apply IH].
  apply IH; [done|]. apply Forall_app. split; [done|]. apply Forall_singleton.
  destruct (iam_build_status headers (trim raw)) as (s & Hs & Hne & Hrow).
  exists raw, s. split_and!; try done. apply Hsub. by left.
Qed.

(** An IAM file whose status column holds a word outside the list. *)
Definition iam_file : string :=
  "requestor,knoxId,permission,cloudPlatform,status" +:+ nl +:+
  "kim,k100,read,aws,bogus".

(** C2, as stated, fails: the IAM parser copies the status cell as it
    is, so an account can have a status outside [active], [expired],
    [extended], [access_removed]. *)
Lemma iam_status_counterexample :
  ∃ account,
    IAM.parseCSVData iam_file = Ok [account] ∧
    get "status" account = Some "bogus" ∧
    "bogus" ∉ IAM.statusTypes.
Proof.
  eexists. split; [reflexivity|]. split; [reflexivity|].
  unfold IAM.statusTypes. rewrite !elem_of_cons, elem_of_nil.
  intros [H|[H|[H|[H|[]]]]]; discriminate H.
Qed.

Section Schema.
Variable AssetStatus_AVAILABLE : string.
Variable AccessoryStatus : Type.
Variables AVAILABLE BORROWED RETURNED DEFECTIVE : AccessoryStatus.
Variable parseInt : string → number.

Lemma status_of_member csvAccessory :
  status_of AccessoryStatus AVAILABLE BORROWED RETURNED DEFECTIVE csvAccessory
    ∈ [AVAILABLE; BORROWED; RETURNED; DEFECTIVE].
Proof.
  unfold status_of. rewrite !elem_of_cons.
  destruct (get "status" csvAccessory) as [s|]; [|by left].
  destruct (is_empty s); [by left|].
  destruct (includes "borrowed" _); [by right; left|].
  destruct (includes "returned" _); [by right; right; left|].
  destruct (includes "defective" _); [by right; right; right; left|].
  by left.
Qed.

(** C2, amended.  The status of imported records.  Every accessory
    produced by a CSV import has a status among the members
    [AVAILABLE], [BORROWED], [RETURNED] and [DEFECTIVE] of the
    [AccessoryStatus] enum.  An imported IAM account is built from a
    data line of the file, and its status is the text of the cell of
    that line under the last header [status] when that cell is not
    empty, and [active] otherwise; the text is not checked against the
    list of status types.
    The status of an imported asset is the status text of the CSV
    record when it has one and [AssetStatus.AVAILABLE] otherwise; it
    is not checked against the [AssetStatus] enum. *)
Theorem import_status_values :
  (∀ csvAccessories,
     Forall (λ accessory, accessory_status accessory
                            ∈ [AVAILABLE; BORROWED; RETURNED; DEFECTIVE])
            (convertCSVToAccessories AccessoryStatus AVAILABLE BORROWED
               RETURNED DEFECTIVE parseInt csvAccessories)) ∧
  (∀ csvContent accounts,
     IAM.parseCSVData csvContent = Ok accounts →
     Forall (status_in (parse_headers (first_line (split newline csvContent)))
                       (drop 1 (split newline csvContent))) accounts) ∧
  (∀ csvAssets,
     Forall2 (λ csv asset,
                (∀ s, get "status" csv = Some s → s ≠ EmptyString →
                      asset_status asset = s) ∧
                (truthy (get "status" csv) = false →
                 asset_status asset = AssetStatus_AVAILABLE))
             csvAssets (convertCSVToAssets AssetStatus_AVAILABLE csvAssets)).
Proof.
  split_and!.
  - intros l. unfold convertCSVToAccessories. apply Forall_fmap, Forall_true.
    intros csv. apply status_of_member.
  - intros csv accounts. unfold IAM.parseCSVData.
    destruct (length (split newline csv) <? 2); [done|]. intros [= <-].
    by apply iam_rows_status.
  - intros l. apply Converters.Forall2_map_intro. intros csv. simpl.
    destruct (get "status" csv) as [[|c r]|]; simpl; split; try done.
    + by intros s [= <-].
    + by intros s [= <-].
Qed.

End Schema.

(** The theorem at the accounts of [iam_file], at an accessory marked
    as returned, and at an asset with a status of its own. *)
Lemma import_status_values_witness :
  (∃ accounts,
     IAM.parseCSVData iam_file = Ok accounts ∧ length accounts = 1 ∧
     Forall (status_in (parse_headers (first_line (split newline iam_file)))
                       (drop 1 (split newline iam_file))) accounts) ∧
  Forall (λ accessory, accessory_status accessory
                         ∈ ["available"; "borrowed"; "returned"; "defective"])
         (convertCSVToAccessories string "available" "borrowed" "returned"
            "defective" Converters.parse_decimal
            [ {[ "name" := "Dock"; "category" := "Desk"; "status" := "Returned 2024" ]} ]).
Proof.
  destruct (import_status_values "available" string "available" "borrowed"
              "returned" "defective" Converters.parse_decimal)
    as (Haccessory & Hiam & _).
  split.
  - eexists. split; [reflexivity|]. split; [reflexivity|]. by apply Hiam.
  - apply Haccessory.
Defined.

End StatusValues.

(** ** Headers are read without regard to case *)

Module HeaderCase.
Import JsFacts.

(** Two characters that are the same letter in either case. *)
Definition case_pair (c d : ascii) : bool :=
  Ascii.eqb c d || (is_upper c && Ascii.eqb d (lower_of c))
  || (is_upper d && Ascii.eqb c (lower_of d)).

(** Two strings that differ in the case of their letters only. *)
Fixpoint same_letters (s t : string) : bool :=
  match s, t with
  | EmptyString, EmptyString => true
  | String c s', String d t' => case_pair c d && same_letters s' t'
  | _, _ => false
  end.

(** A run of white space. *)
Fixpoint blank (s : string) : bool :=
  match s with
  | EmptyString => true
  | String c r => is_white_space c && blank r
  end.

(** [cell'] is [cell] with the case of some letters changed and white
    space added around it. *)
Definition recased (cell cell' : string) : Prop :=
  ∃ before core after,
    blank before = true ∧ blank after = true ∧
    same_letters cell core = true ∧ cell' = before +:+ core +:+ after.

Lemma upper_lower_facts c :
  is_upper c = true →
  is_upper (lower_of c) = false ∧ is_white_space c = false ∧
  is_white_space (lower_of c) = false.
Proof.
  destruct c as [[] [] [] [] [] [] [] []]; vm_compute; intros H;
    first [discriminate H | done].
Qed.

Lemma case_pair_spec c d :
  case_pair c d = true →
  toLowerChar c = toLowerChar d ∧ is_white_space c = is_white_space d.
Proof.
  unfold case_pair. rewrite !orb_true_iff, !andb_true_iff.
  intros [[Heq|[Hu Heq]]|[Hu Heq]].
  - apply Ascii.eqb_eq in Heq as ->. done.
  - apply Ascii.eqb_eq in Heq as ->.
    destruct (upper_lower_facts c Hu) as (Hl & Hw & Hw').
    unfold toLowerChar. by rewrite Hu, Hl, Hw, Hw'.
  - apply Ascii.eqb_eq in Heq as ->.
    destruct (upper_lower_facts d Hu) as (Hl & Hw & Hw').
    unfold toLowerChar. by rewrite Hu, Hl, Hw, Hw'.
Qed.

Lemma same_letters_lower s t :
  same_letters s t = true → toLowerCase s = toLowerCase t.
Proof.
  revert t. induction s as [|c s IH]; intros [|d t]; simpl; try done.
  intros [[Hc _]%case_pair_spec Hs]%andb_true_iff.
  by rewrite Hc, (IH t).
Qed.

Lemma same_letters_trimStart s t :
  same_letters s t = true → same_letters (trimStart s) (trimStart t) = true.
Proof.
  revert t. induction s as [|c s IH]; intros [|d t]; simpl; try done.
  intros H. pose proof H as [[_ Hw]%case_pair_spec Hs]%andb_true_iff.
  rewrite <- Hw. destruct (is_white_space c); [by apply IH|done].
Qed.

Lemma same_letters_trimEnd s t :
  same_letters s t = true → same_letters (trimEnd s) (trimEnd t) = true.
Proof.
  revert t. induction s as [|c s IH]; intros [|d t]; simpl; try done.
  intros [Hcd Hs]%andb_true_iff.
  pose proof Hcd as [_ Hw]%case_pair_spec. specialize (IH t Hs).
  destruct (trimEnd s) as [|c' s'], (trimEnd t) as [|d' t']; try done.
  - rewrite <- Hw. destruct (is_white_space c); [done|]. simpl. by rewrite Hcd.
  - simpl in *. by rewrite Hcd.
Qed.

Lemma blank_trimStart before s :
  blank before = true → trimStart (before +:+ s) = trimStart s.
Proof.
  induction before as [|c r IH]; simpl; [done|].
  intros [-> Hr]%andb_true_iff. by apply IH.
Qed.

Lemma blank_trimStart_nil after :
  blank after = true → trimStart after = EmptyString.
Proof.
  induction after as [|c r IH]; simpl; [done|].
  intros [-> Hr]%andb_true_iff. by apply IH.
Qed.

Lemma blank_trimEnd_nil after : blank after = true → trimEnd after = EmptyString.
Proof.
  induction after as [|c r IH]; simpl; [done|].
  intros [-> Hr]%andb_true_iff. by rewrite IH.
Qed.

Lemma blank_trimEnd s after :
  blank after = true → trimEnd (s +:+ after) = trimEnd s.
Proof.
  intros Hb. induction s as [|c r IH]; simpl.
  - by apply blank_trimEnd_nil.
  - by rewrite IH.
Qed.

Lemma blank_trim_after s after :
  blank after = true → trim (s +:+ after) = trim s.
Proof.
  intros Hb. unfold trim. induction s as [|c r IH].
  - rewrite append_nil_l. by rewrite (blank_trimStart_nil after Hb).
  - rewrite append_cons. simpl.
    destruct (is_white_space c); [done|].
    rewrite <- append_cons. by apply blank_trimEnd.
Qed.

Lemma recased_normal cell cell' :
  recased cell cell' → toLowerCase (trim cell) = toLowerCase (trim cell').
Proof.
  intros (before & core & after & Hb & Ha & Hs & ->).
  unfold trim at 2. rewrite blank_trimStart by done.
  fold (trim (core +:+ after)). rewrite blank_trim_after by done.
  apply same_letters_lower. unfold trim.
  by apply same_letters_trimEnd, same_letters_trimStart.
Qed.

Lemma recased_headers cells cells' :
  Forall2 recased cells cells' →
  map (λ header, toLowerCase (trim header)) cells =
  map (λ header, toLowerCase (trim header)) cells'.
Proof.
  induction 1 as [|c c' l l' Hc _ IH]; simpl; [done|].
  by rewrite (recased_normal c c'), IH.
Qed.

(** Two files with the same data lines, whose header cells differ by
    case and surrounding white space only. *)
Definition same_but_headers (csv csv' : string) : Prop :=
  drop 1 (split newline csv) = drop 1 (split newline csv') ∧
  Forall2 recased (split comma (first_line (split newline csv)))
                  (split comma (first_line (split newline csv'))).

Lemma same_but_headers_lines csv csv' :
  same_but_headers csv csv' →
  length (split newline csv) = length (split newline csv') ∧
  drop 1 (split newline csv) = drop 1 (split newline csv') ∧
  parse_headers (first_line (split newline csv)) =
  parse_headers (first_line (split newline csv')).
Proof.
  intros [Hdrop Hcells]. split_and!; [|done|by apply recased_headers].
  pose proof (split_not_nil newline csv). pose proof (split_not_nil newline csv').
  destruct (split newline csv), (split newline csv'); try done.
  simpl in Hdrop. rewrite !drop_0 in Hdrop. simpl. by rewrite Hdrop.
Qed.

(** C5.  Header lookup is case-insensitive in every parser.  When the
    letter case of header cells is changed and white space is added
    around them, the data lines being the same, each of the five parsers
    gives the same output: the same records, or the same error. *)
Theorem headers_case_insensitive (csvContent csvContent' : string) :
  same_but_headers csvContent csvContent' →
  Asset.parseCSV csvContent' = Asset.parseCSV csvContent ∧
  Component.parseComponentCSV csvContent' = Component.parseComponentCSV csvContent ∧
  Accessory.parseAccessoryCSV csvContent' = Accessory.parseAccessoryCSV csvContent ∧
  VM.parseVMCSV csvContent' = VM.parseVMCSV csvContent ∧
  IAM.parseCSVData csvContent' = IAM.parseCSVData csvContent.
Proof.
  intros (Hlen & Hdrop & Hheaders)%same_but_headers_lines.
  unfold Asset.parseCSV, Component.parseComponentCSV,
    Accessory.parseAccessoryCSV, VM.parseVMCSV, IAM.parseCSVData, Strict.parse.
  by rewrite Hlen, Hdrop, Hheaders.
Qed.

(** A component file, and the same file with its header in other cases
    and with spaces around the cells. *)
Definition plain_file : string :=
  "name,category,serial number" +:+ nl +:+ "Fan,Cooling,F-12".
Definition recased_file : string :=
  " NAME,Category  , Serial Number" +:+ nl +:+ "Fan,Cooling,F-12".

Lemma headers_case_insensitive_witness :
  same_but_headers plain_file recased_file ∧
  Component.parseComponentCSV recased_file =
    Ok [ {[ "name" := "Fan"; "category" := "Cooling"; "serialNumber" := "F-12" ]} ].
Proof.
  assert (same_but_headers plain_file recased_file) as Hsame.
  { split; [by vm_compute|].
    change (split comma (first_line (split newline plain_file)))
      with ["name"; "category"; "serial number"].
    change (split comma (first_line (split newline recased_file)))
      with [" NAME"; "Category  "; " Serial Number"].
    repeat constructor.
    - by exists " ", "NAME", EmptyString.
    - by exists EmptyString, "Category", "  ".
    - by exists " ", "Serial Number", EmptyString. }
  split; [done|].
  destruct (headers_case_insensitive plain_file recased_file Hsame)
    as (_ & -> & _).
  reflexivity.
Defined.

End HeaderCase.

(** ** A malformed row is surfaced as an error *)

Module MalformedRow.
Import JsFacts.

(** A data line that is not empty and whose number of values differs
    from the number of headers. *)
Definition mismatched (headers : list string) (line : string) : bool :=
  negb (is_empty (trim line)) &&
  negb (length (Strict.row_values line) =? length headers).

(** The required headers are all there. *)
Definition headers_present (required headers : list string) : Prop :=
  List.filter (λ header, negb (array_includes headers header)) required = [].

Section Strict.
Variable required : list string.
Variable header_cases : cases.
Variable check : nat → obj → option Error.

(** The data line at index [i] of the file goes through: it is empty,
    or it has as many values as there are headers and its object passes
    the check. *)
Definition accepted (headers : list string) (i : nat) (line : string) : Prop :=
  is_empty (trim line) = true ∨
  (length (Strict.row_values line) = length headers ∧
   check (i + 1) (Strict.build header_cases headers (Strict.row_values line)) = None).

Lemma rows_throw headers i lines acc line :
  line ∈ lines → mismatched headers line = true →
  returns (Strict.rows header_cases check headers i lines acc) = false.
Proof.
  intros Hin [Hne Hcount]%andb_true_iff. revert i acc.
  induction lines as [|l rest IH]; intros i acc; [by apply elem_of_nil in Hin|].
  simpl. apply elem_of_cons in Hin as [<-|Hin].
  - apply negb_true_iff in Hne. by rewrite Hne, Hcount.
  - destruct (is_empty (trim l)); [by apply IH|].
    destruct (negb (length (Strict.row_values l) =? _)); [done|].
    destruct (check _ _); [done|]. by apply IH.
Qed.

Lemma rows_first_mismatch headers i pre bad post acc :
  (∀ k line, pre !! k = Some line → accepted headers (i + k) line) →
  mismatched headers bad = true →
  Strict.rows header_cases check headers i (pre ++ bad :: post) acc =
    Throw (ColumnCount (i + length pre + 1)
             (length (Strict.row_values bad)) (length headers)).
Proof.
  intros Hpre [Hne Hcount]%andb_true_iff. revert i acc Hpre.
  induction pre as [|l pre IH]; intros i acc Hpre; simpl.
  - apply negb_true_iff in Hne. rewrite Hne, Hcount.
    by replace (i + 0 + 1) with (i + 1) by lia.
  - replace (i + S (length pre) + 1) with (S i + length pre + 1) by lia.
    assert (∀ k line, pre !! k = Some line → accepted headers (S i + k) line)
      as Hrest.
    { intros k line Hk. replace (S i + k) with (i + S k) by lia.
      by apply Hpre. }
    destruct (Hpre 0 l eq_refl) as [Hempty|[Hlen Hcheck]].
    + rewrite Hempty. by apply IH.
    + destruct (is_empty (trim l)); [by apply IH|].
      replace (i + 0) with i in Hcheck by lia.
      apply Nat.eqb_eq in Hlen. rewrite Hlen. simpl. rewrite Hcheck.
      by apply IH.
Qed.

(** What the parser [parse] does with a row of the wrong length. *)
Definition surfaces_mismatch (parse : string → result (list obj)) : Prop :=
  ∀ csvContent,
    let lines := split newline csvContent in
    let headers := parse_headers (first_line lines) in
    (∀ line, line ∈ drop 1 lines → mismatched headers line = true →
             returns (parse csvContent) = false) ∧
    (∀ pre bad post,
       drop 1 lines = (pre ++ bad :: post)%list →
       headers_present required headers →
       (∀ k line, pre !! k = Some line → accepted headers (1 + k) line) →
       mismatched headers bad = true →
       parse csvContent =
         Throw (ColumnCount (length pre + 2)
                  (length (Strict.row_values bad)) (length headers))).

Lemma parse_surfaces_mismatch :
  surfaces_mismatch (Strict.parse required header_cases check).
Proof.
  intros csv lines headers. unfold Strict.parse. fold lines headers. split.
  - intros line Hin Hbad.
    destruct (length lines <? 2); [done|].
    destruct (0 <? _); [done|]. by eapply rows_throw.
  - intros pre bad post Hdrop Hpresent Hpre Hbad.
    destruct (length lines <? 2) eqn:Hlt.
    { apply Nat.ltb_lt in Hlt. apply (f_equal length) in Hdrop.
      rewrite length_drop, length_app in Hdrop. simpl in Hdrop. lia. }
    unfold headers_present in Hpresent. rewrite Hpresent, Hdrop. simpl.
    rewrite (rows_first_mismatch headers 1 pre bad post [] Hpre Hbad).
    by replace (1 + length pre + 1) with (length pre + 2) by lia.
Qed.

End Strict.

Lemma vm_surfaces_mismatch :
  surfaces_mismatch VM.required VM.header_cases VM.check VM.parseVMCSV.
Proof.
  intros csv lines headers.
  destruct (parse_surfaces_mismatch VM.required VM.header_cases VM.check csv)
    as [Hthrow Hfirst].
  unfold VM.parseVMCSV. split.
  - intros line Hin Hbad. specialize (Hthrow line Hin Hbad).
    by destruct (Strict.parse _ _ _ _).
  - intros pre bad post Hdrop Hpresent Hpre Hbad.
    by rewrite (Hfirst pre bad post Hdrop Hpresent Hpre Hbad).
Qed.

(** A file whose data row has one value under two headers, neither of
    them a required one. *)
Definition headless_file : string := "a,b" +:+ nl +:+ "x".

(** C6, as stated, fails: the data row of [headless_file] has one value
    for two headers, and the error thrown is the one for the missing
    headers, which names no line. *)
Lemma mismatch_error_counterexample :
  mismatched (parse_headers "a,b") "x" = true ∧
  Component.parseComponentCSV headless_file
    = Throw (MissingHeaders ["name"; "category"]) ∧
  line_of (MissingHeaders ["name"; "category"]) = None.
Proof. split_and!; reflexivity. Qed.

(** C6, amended.  For every input in which some non-empty data row has
    a comma-split value count different from the header count,
    [parseComponentCSV], [parseAccessoryCSV] and [parseVMCSV] throw an
    error and return no records.  When the required headers are present
    and every data line before that row is empty or passes the checks of
    the parser, the error is the column-count error naming the line of
    that row. *)
Theorem malformed_row_throws :
  surfaces_mismatch Component.required Component.header_cases Component.check
    Component.parseComponentCSV ∧
  surfaces_mismatch Accessory.required Accessory.header_cases Accessory.check
    Accessory.parseAccessoryCSV ∧
  surfaces_mismatch VM.required VM.header_cases VM.check VM.parseVMCSV.
Proof.
  split_and!.
  - apply parse_surfaces_mismatch.
  - apply parse_surfaces_mismatch.
  - apply vm_surfaces_mismatch.
Qed.

(** A VM file whose third line has two values under three headers. *)
Definition short_row_file : string :=
  "vmId,vmName,hypervisor" +:+ nl +:+ "vm-1,build,esx-3" +:+ nl +:+
  "vm-2,test" +:+ nl +:+ "vm-3,stage,esx-4".

Lemma malformed_row_throws_witness :
  VM.parseVMCSV short_row_file = Throw (ColumnCount 3 2 3) ∧
  message (ColumnCount 3 2 3) = "Line 3 has 2 values, but header has 3 columns".
Proof.
  split; [|done].
  destruct malformed_row_throws as (_ & _ & Hvm).
  destruct (Hvm short_row_file) as [_ Hfirst].
  apply (Hfirst ["vm-1,build,esx-3"] "vm-2,test" ["vm-3,stage,esx-4"]).
  - done.
  - done.
  - intros [|k] line; [|done]. intros [= <-]. right. split; reflexivity.
  - done.
Defined.

End MalformedRow.

(** ** The asset parser tolerates rows of any length *)

Module AssetRows.
Import JsFacts Asset.

(** A value that the asset parser stores: neither empty nor [N/A]. *)
Definition stored (value : string) : Prop :=
  value ≠ EmptyString ∧ value ≠ "N/A".

Lemma skipped_false value : skipped value = false → stored value.
Proof.
  unfold skipped, stored. intros [H1 H2]%orb_false_iff.
  apply is_empty_false in H1. by apply String.eqb_neq in H2.
Qed.

Lemma stored_skipped value : stored value → skipped value = false.
Proof.
  unfold skipped, stored. intros [H1 H2]. apply orb_false_iff.
  split; [by apply is_empty_false|by apply String.eqb_neq].
Qed.

Lemma row_values_length columns line :
  length (row_values columns line) = columns.
Proof.
  unfold row_values, truncate, pad.
  destruct (columns <? _) eqn:Hlt.
  - apply Nat.ltb_lt in Hlt. rewrite length_take. lia.
  - apply Nat.ltb_ge in Hlt. rewrite length_app, length_replicate in *. lia.
Qed.

Lemma row_values_padded columns line :
  length (split comma line) ≤ columns →
  row_values columns line =
    ((cell <$> split comma line) ++
     replicate (columns - length (split comma line)) EmptyString)%list.
Proof.
  intros Hle. unfold row_values, truncate, pad.
  rewrite length_app, length_replicate, !length_map.
  destruct (columns <? _) eqn:Hlt; [|done].
  apply Nat.ltb_lt in Hlt. lia.
Qed.

Lemma row_values_truncated columns line :
  columns ≤ length (split comma line) →
  row_values columns line = take columns (cell <$> split comma line).
Proof.
  intros Hle. unfold row_values, truncate, pad.
  rewrite length_app, length_replicate, !length_map.
  replace (columns - length (split comma line)) with 0 by lia.
  simpl. rewrite app_nil_r.
  destruct (columns <? _) eqn:Hlt; [done|].
  apply Nat.ltb_ge in Hlt. rewrite take_ge; [done|].
  rewrite length_fmap. lia.
Qed.

(** The property that a column writes: the one of the case of its
    header, or the header itself in the default case, where the header
    [__proto__] creates no property. *)
Definition property_of (header : string) : option string :=
  match switch header_cases header with
  | Some property => Some property
  | None => if String.eqb header "__proto__" then None else Some header
  end.

(** Column [i] of the row holds a stored value and writes it under
    the property [key]. *)
Definition writes (headers values : list string) (i : nat)
    (key value : string) : Prop :=
  ∃ header, headers !! i = Some header ∧ values !! i = Some value ∧
            stored value ∧ property_of header = Some key.

(** The asset of a row: each property holds the value written by the
    last column that writes under it, and there is no other property. *)
Definition asset_of (headers values : list string) (asset : obj) : Prop :=
  ∀ key value,
    asset !! key = Some value ↔
    ∃ i, writes headers values i key value ∧
         ∀ j value', i < j → ¬ writes headers values j key value'.

(** The row has data: some column holds a stored value. *)
Definition has_data (headers values : list string) : Prop :=
  ∃ i header value,
    headers !! i = Some header ∧ values !! i = Some value ∧ stored value.

(** The assets of the data lines, in the order of the file: a blank
    line gives none, a line without data gives none, any other line
    gives the asset of its values brought to the length of the
    header. *)
Inductive assets_of (headers : list string) : list string → list obj → Prop :=
  | assets_end : assets_of headers [] []
  | assets_blank line rest assets :
      trim line = EmptyString →
      assets_of headers rest assets →
      assets_of headers (line :: rest) assets
  | assets_hollow line rest assets :
      trim line ≠ EmptyString →
      ¬ has_data headers (row_values (length headers) line) →
      assets_of headers rest assets →
      assets_of headers (line :: rest) assets
  | assets_row line rest asset assets :
      trim line ≠ EmptyString →
      has_data headers (row_values (length headers) line) →
      asset_of headers (row_values (length headers) line) asset →
      assets_of headers rest assets →
      assets_of headers (line :: rest) (asset :: assets).

(** The relation leaves no choice: the lines determine the assets. *)
Lemma asset_of_unique headers values asset1 asset2 :
  asset_of headers values asset1 → asset_of headers values asset2 →
  asset1 = asset2.
Proof.
  intros H1 H2. apply map_eq. intros key. apply option_eq. intros value.
  by rewrite (H1 key value), (H2 key value).
Qed.

Lemma assets_of_unique headers lines assets1 assets2 :
  assets_of headers lines assets1 → assets_of headers lines assets2 →
  assets1 = assets2.
Proof.
  intros H1. revert assets2.
  induction H1 as [|line rest assets Hblank _ IH|line rest assets Hline Hnone _ IH
                   |line rest asset assets Hline Hdata Hasset _ IH];
    intros assets2 H2; inversion H2; subst; try done; try by apply IH.
  f_equal; [by eapply asset_of_unique|by apply IH].
Qed.

Lemma assign_lookup (values : list string) header index st key :
  (assign values header index st).1 !! key =
  match values !! index with
  | Some value =>
      if skipped value then st.1 !! key
      else if decide (property_of header = Some key) then Some value
           else st.1 !! key
  | None => st.1 !! key
  end.
Proof.
  destruct st as [asset flag]. unfold assign, property_of.
  destruct (values !! index) as [value|]; [|done].
  destruct (skipped value); [done|].
  destruct (switch header_cases header) as [property|]; cbn [fst].
  - case_decide as Hp.
    + injection Hp as ->. by rewrite lookup_insert_eq.
    + rewrite lookup_insert_ne; [done|]. by intros ->.
  - unfold set_custom. destruct (String.eqb header "__proto__").
    + by rewrite decide_False.
    + case_decide as Hp.
      * injection Hp as ->. by rewrite lookup_insert_eq.
      * rewrite lookup_insert_ne; [done|]. by intros ->.
Qed.

Lemma assign_flag (values : list string) header index st :
  (assign values header index st).2 =
  st.2 || match values !! index with
          | Some value => negb (skipped value)
          | None => false
          end.
Proof.
  destruct st as [asset flag]. unfold assign.
  destruct (values !! index) as [value|]; [|by rewrite orb_false_r].
  destruct (skipped value); [by rewrite orb_false_r|].
  rewrite orb_true_r. by destruct (switch header_cases header).
Qed.

Lemma writes_first header rest (values : list string) key value :
  writes (header :: rest) values 0 key value ↔
  values !! 0 = Some value ∧ stored value ∧ property_of header = Some key.
Proof.
  unfold writes. split.
  - by intros (h & [= <-] & Hv & Hs & Hp).
  - intros (Hv & Hs & Hp). by exists header.
Qed.

Lemma writes_later header rest (values : list string) j key value :
  writes (header :: rest) values (S j) key value ↔
  writes rest (drop 1 values) j key value.
Proof. unfold writes. by setoid_rewrite lookup_drop. Qed.

(** The asset after the columns from [index] on: under [key], the value
    of the last of these columns that writes under it, and the value
    held before when none does. *)
Lemma forEach_lookup (values : list string) headers index st key value :
  (forEach (assign values) headers index st).1 !! key = Some value ↔
  (∃ i, writes headers (drop index values) i key value ∧
        ∀ j value', i < j → ¬ writes headers (drop index values) j key value') ∨
  ((∀ j value', ¬ writes headers (drop index values) j key value') ∧
   st.1 !! key = Some value).
Proof.
  revert index st.
  induction headers as [|header rest IH]; intros index st; cbn [forEach].
  - split.
    + intros Hst. right. split; [|done]. by intros j value' (h & Hh & _).
    + by intros [(i & (h & Hh & _) & _)|[_ Hst]].
  - rewrite IH, assign_lookup.
    assert (drop (S index) values = drop 1 (drop index values)) as ->.
    { rewrite drop_drop. f_equal. lia. }
    assert (values !! index = drop index values !! 0) as ->.
    { rewrite lookup_drop. f_equal. lia. }
    clear IH. generalize (drop index values). clear values. intros values.
    split.
    + intros [(i & Hi & Hlast)|[Hnone Hst]].
      * left. exists (S i). split; [by apply writes_later|].
        intros [|j] value' Hj; [lia|]. rewrite writes_later. apply Hlast. lia.
      * assert (∀ j value',
                  ¬ writes (header :: rest) values (S j) key value') as Hnone'.
        { intros j value'. rewrite writes_later. apply Hnone. }
        destruct (values !! 0) as [first|] eqn:Hfirst.
        -- destruct (skipped first) eqn:Hskip.
           ++ right. split; [|done]. intros [|j] value'; [|apply Hnone'].
              rewrite writes_first. intros (Hv & Hs%stored_skipped & _).
              congruence.
           ++ case_decide as Hp.
              ** injection Hst as <-. left. exists 0. split.
                 --- apply writes_first. split_and!; [done| |done].
                     by apply skipped_false.
                 --- intros [|j] value' Hj; [lia|]. apply Hnone'.
              ** right. split; [|done]. intros [|j] value'; [|apply Hnone'].
                 rewrite writes_first. by intros (_ & _ & Hp').
        -- right. split; [|done]. intros [|j] value'; [|apply Hnone'].
           rewrite writes_first. intros (Hv & _). congruence.
    + intros [(i & Hi & Hlast)|[Hnone Hst]].
      * destruct i as [|i].
        -- right. split.
           ++ intros j value'. rewrite <- (writes_later header). apply Hlast. lia.
           ++ apply writes_first in Hi as (Hv & Hs & Hp).
              rewrite Hv, (stored_skipped _ Hs). by rewrite decide_True.
        -- left. exists i. split; [by rewrite <- (writes_later header)|].
           intros j value' Hj. rewrite <- (writes_later header). apply Hlast. lia.
      * right. split.
        -- intros j value'. rewrite <- (writes_later header). apply Hnone.
        -- destruct (values !! 0) as [first|] eqn:Hfirst; [|done].
           destruct (skipped first) eqn:Hskip; [done|].
           case_decide as Hp; [|done]. exfalso. apply (Hnone 0 first).
           apply writes_first. split_and!; [done| |done].
           by apply skipped_false.
Qed.

(** The flag [hasAnyData] after the columns from [index] on. *)
Lemma forEach_flag (values : list string) headers index st :
  (forEach (assign values) headers index st).2 = true ↔
  st.2 = true ∨ has_data headers (drop index values).
Proof.
  revert index st.
  induction headers as [|header rest IH]; intros index st; cbn [forEach].
  - split; [by left|]. by intros [Hst|(i & h & v & Hh & _)].
  - rewrite IH, assign_flag.
    assert (drop (S index) values = drop 1 (drop index values)) as ->.
    { rewrite drop_drop. f_equal. lia. }
    assert (values !! index = drop index values !! 0) as ->.
    { rewrite lookup_drop. f_equal. lia. }
    clear IH. generalize (drop index values). clear values. intros values.
    split.
    + intros [Hst|(i & h & v & Hh & Hv & Hs)].
      * apply orb_true_iff in Hst as [Hst|Hst]; [by left|]. right.
        destruct (values !! 0) as [first|] eqn:Hfirst; [|done].
        exists 0, header, first. split_and!; [done|done|].
        apply skipped_false. by apply negb_true_iff.
      * right. rewrite lookup_drop in Hv. by exists (S i), h, v.
    + intros [Hst|([|i] & h & v & Hh & Hv & Hs)].
      * left. by rewrite Hst.
      * left. rewrite Hv, (stored_skipped _ Hs). by rewrite orb_true_r.
      * right. exists i, h, v. by rewrite lookup_drop.
Qed.

Lemma rows_app headers lines acc :
  rows headers lines acc = (acc ++ rows headers lines [])%list.
Proof.
  revert acc. induction lines as [|line rest IH]; intros acc; cbn [rows].
  - by rewrite app_nil_r.
  - destruct (is_empty (trim line)); [apply IH|].
    destruct (forEach _ _ _ _) as [asset hasAnyData].
    destruct hasAnyData; [|apply IH].
    rewrite IH, (IH ([] ++ [asset])%list). by rewrite <- app_assoc.
Qed.

Lemma rows_assets_of headers lines :
  assets_of headers lines (rows headers lines []).
Proof.
  induction lines as [|line rest IH]; cbn [rows]; [constructor|].
  destruct (is_empty (trim line)) eqn:Hempty.
  { apply assets_blank; [by apply is_empty_true|done]. }
  apply is_empty_false in Hempty.
  pose proof (forEach_flag (row_values (length headers) line) headers 0
                (∅, false)) as Hflag.
  pose proof (forEach_lookup (row_values (length headers) line) headers 0
                (∅, false)) as Hlookup.
  destruct (forEach _ _ _ _) as [asset hasAnyData].
  cbn [fst snd drop] in Hflag, Hlookup.
  destruct hasAnyData.
  - rewrite rows_app. apply assets_row; [done| | |done].
    + by destruct (proj1 Hflag eq_refl).
    + intros key value. rewrite Hlookup. split; [|by left].
      intros [Hlast|[_ Hnone]]; [done|]. by rewrite lookup_empty in Hnone.
  - apply assets_hollow; [done| |done].
    intros Hdata. by pose proof (proj2 Hflag (or_intror Hdata)).
Qed.

(** A file with a single line. *)
Definition header_only_file : string := "serial,name".

(** An IAM file whose first data row has six values and whose second
    has two, under four headers. *)
Definition ragged_file : string :=
  "requestor,knoxId,permission,cloudPlatform" +:+ nl +:+
  "kim,k100,read,aws,extra,more" +:+ nl +:+ "lee,k200".

(** C10, as stated, fails twice.  The asset parser does not always
    return: on a single line it throws.  And it is not alone in
    tolerating a row of the wrong length: the IAM parser reads the
    long first row of [ragged_file] and passes over its short second
    row without an error. *)
Lemma asset_rows_counterexample :
  parseCSV header_only_file = Throw NoDataRow ∧
  length (parse_headers (first_line (split newline ragged_file))) = 4 ∧
  length <$> (split comma <$> drop 1 (split newline ragged_file)) = [6; 2] ∧
  ∃ account,
    IAM.parseCSVData ragged_file = Ok [account] ∧
    get "requestor" account = Some "kim".
Proof.
  split_and!; [reflexivity..|].
  eexists. split; reflexivity.
Qed.

(** C10, amended.  Like the IAM parser [parseCSVData], and unlike
    [parseComponentCSV], [parseAccessoryCSV] and [parseVMCSV], which
    throw when a non-empty data row has a number of comma-split values
    other than the number of headers, the asset parser [parseCSV] never
    throws on a column-count mismatch: it throws on an input of fewer
    than two lines and on no other.  The values of a data row are
    brought to the length of the header: a row with fewer comma-split
    values than headers is padded with empty strings, a row with more
    is truncated.  On an input of two lines or more [parseCSV] returns
    the list, which may be empty, of the assets of the data lines in
    the order of the file, without the lines that are blank and the
    lines all of whose cells are empty or [N/A]; the asset of a line
    holds, under each property, the value of the last column mapped to
    that property whose cell is neither empty nor [N/A], and holds
    nothing else, so that the input determines the list. *)
Theorem asset_rows_tolerated (csvContent : string) :
  let lines := split newline csvContent in
  let headers := parse_headers (first_line lines) in
  (∀ line,
     length (row_values (length headers) line) = length headers ∧
     (length (split comma line) ≤ length headers →
      row_values (length headers) line =
        ((cell <$> split comma line) ++
         replicate (length headers - length (split comma line)) EmptyString)%list) ∧
     (length headers ≤ length (split comma line) →
      row_values (length headers) line =
        take (length headers) (cell <$> split comma line))) ∧
  (length lines < 2 → parseCSV csvContent = Throw NoDataRow) ∧
  (2 ≤ length lines →
   ∃ assets,
     parseCSV csvContent = Ok assets ∧
     assets_of headers (drop 1 lines) assets ∧
     ∀ others, assets_of headers (drop 1 lines) others → others = assets) ∧
  (2 ≤ length lines → returns (IAM.parseCSVData csvContent) = true) ∧
  (∀ line,
     line ∈ drop 1 lines → MalformedRow.mismatched headers line = true →
     returns (Component.parseComponentCSV csvContent) = false ∧
     returns (Accessory.parseAccessoryCSV csvContent) = false ∧
     returns (VM.parseVMCSV csvContent) = false).
Proof.
  intros lines headers. split_and!.
  - intros line. split_and!.
    + apply row_values_length.
    + apply row_values_padded.
    + apply row_values_truncated.
  - intros Hlen%Nat.ltb_lt. unfold parseCSV. fold lines. by rewrite Hlen.
  - intros Hlen%Nat.ltb_ge. unfold parseCSV. fold lines. rewrite Hlen.
    eexists. split_and!; [done|apply rows_assets_of|].
    intros others Hothers.
    apply (assets_of_unique headers (drop 1 lines)); [done|apply rows_assets_of].
  - intros Hlen%Nat.ltb_ge. unfold IAM.parseCSVData. fold lines.
    by rewrite Hlen.
  - intros line Hin Hbad. split_and!.
    + by apply (proj1 (MalformedRow.parse_surfaces_mismatch Component.required
                         Component.header_cases Component.check csvContent)
                  line).
    + by apply (proj1 (MalformedRow.parse_surfaces_mismatch Accessory.required
                         Accessory.header_cases Accessory.check csvContent)
                  line).
    + by apply (proj1 (MalformedRow.vm_surfaces_mismatch csvContent) line).
Qed.

(** A file whose first data row is short, whose second is long and
    whose third holds nothing to store. *)
Definition asset_file : string :=
  "Serial Number,Name,Status" +:+ nl +:+ "SN-1" +:+ nl +:+
  "SN-2,Laptop 2,N/A,extra,more" +:+ nl +:+ ",N/A".

Lemma asset_rows_tolerated_witness :
  parseCSV asset_file =
    Ok [ {[ "serialNumber" := "SN-1" ]};
         {[ "serialNumber" := "SN-2"; "name" := "Laptop 2" ]} ] ∧
  assets_of (parse_headers (first_line (split newline asset_file)))
            (drop 1 (split newline asset_file))
            [ {[ "serialNumber" := "SN-1" ]};
              {[ "serialNumber" := "SN-2"; "name" := "Laptop 2" ]} ].
Proof.
  assert (parseCSV asset_file =
            Ok [ {[ "serialNumber" := "SN-1" ]};
                 {[ "serialNumber" := "SN-2"; "name" := "Laptop 2" ]} ])
    as Hrun by reflexivity.
  split; [done|].
  pose proof (asset_rows_tolerated asset_file) as H. cbv zeta in H.
  destruct H as (_ & _ & Hparsed & _).
  destruct Hparsed as (assets & Hparse & Hall & _); [vm_compute; lia|].
  rewrite Hrun in Hparse. by injection Hparse as <-.
Defined.

End AssetRows.

(** ** Quoted fields *)

Module Quotes.
Import JsFacts.

(** A file for the component and the accessory parser, and one for the
    VM parser, whose data cells are wrapped in double quotes. *)
Definition quoted_component_file : string :=
  "name,category" +:+ nl +:+
  dq +:+ "Fan" +:+ dq +:+ "," +:+ dq +:+ "Cooling" +:+ dq.
Definition quoted_vm_file : string :=
  "vmId,vmName,hypervisor" +:+ nl +:+
  dq +:+ "vm-1" +:+ dq +:+ "," +:+ dq +:+ "build" +:+ dq +:+ "," +:+
  dq +:+ "esx-3" +:+ dq.

(** C1 at its failing input.  [parseComponentCSV], [parseAccessoryCSV]
    and [parseVMCSV] return the cells of a quoted row with their double
    quotes, where the asset parser [parseCSV], reading the same file,
    returns the content between the quotes. *)
Theorem quotes_kept_by_strict_parsers :
  Component.parseComponentCSV quoted_component_file =
    Ok [ {[ "name" := dq +:+ "Fan" +:+ dq;
            "category" := dq +:+ "Cooling" +:+ dq ]} ] ∧
  Accessory.parseAccessoryCSV quoted_component_file =
    Ok [ {[ "name" := dq +:+ "Fan" +:+ dq;
            "category" := dq +:+ "Cooling" +:+ dq ]} ] ∧
  VM.parseVMCSV quoted_vm_file =
    Ok [ {[ "vmId" := dq +:+ "vm-1" +:+ dq;
            "vmName" := dq +:+ "build" +:+ dq;
            "hypervisor" := dq +:+ "esx-3" +:+ dq ]} ] ∧
  Asset.parseCSV quoted_component_file =
    Ok [ {[ "name" := "Fan"; "category" := "Cooling" ]} ].
Proof. split_and!; reflexivity. Qed.

End Quotes.

(** ** Splitting and joining *)

Module SplitJoin.
Import JsFacts.

Lemma includes_char_app c a b :
  includes_char c (a +:+ b) = includes_char c a || includes_char c b.
Proof.
  induction a as [|d a IH]; [done|].
  rewrite append_cons. simpl. by rewrite IH, orb_assoc.
Qed.

Lemma split_no_sep sep p : includes_char sep p = false → split sep p = [p].
Proof.
  induction p as [|c p IH]; simpl; [done|].
  intros [Hc Hp]%orb_false_iff. by rewrite Hc, IH.
Qed.

Lemma split_app_sep sep p rest :
  includes_char sep p = false →
  split sep (p +:+ String sep rest) = p :: split sep rest.
Proof.
  induction p as [|c p IH].
  - intros _. rewrite append_nil_l. simpl. by rewrite Ascii.eqb_refl.
  - rewrite append_cons. simpl. intros [Hc Hp]%orb_false_iff.
    by rewrite Hc, IH.
Qed.

(** Splitting undoes joining when no part holds the separator. *)
Lemma split_join sep parts :
  parts ≠ [] →
  Forall (λ p, includes_char sep p = false) parts →
  split sep (join sep parts) = parts.
Proof.
  induction parts as [|p [|q rest] IH]; [done| |].
  - intros _ [Hp _]%Forall_cons. by apply split_no_sep.
  - intros _ [Hp Hrest]%Forall_cons.
    change (join sep (p :: q :: rest)) with (p +:+ String sep (join sep (q :: rest))).
    rewrite split_app_sep by done. by rewrite IH.
Qed.

Lemma includes_char_join c sep parts :
  Ascii.eqb sep c = false →
  Forall (λ p, includes_char c p = false) parts →
  includes_char c (join sep parts) = false.
Proof.
  intros Hsep. induction parts as [|p [|q rest] IH]; [done| |].
  - by intros [Hp _]%Forall_cons.
  - intros [Hp Hrest]%Forall_cons.
    change (join sep (p :: q :: rest)) with (p +:+ String sep (join sep (q :: rest))).
    rewrite includes_char_app, Hp, orb_false_l. cbn [includes_char].
    rewrite Hsep. by apply IH.
Qed.

Lemma trimStart_length s : String.length (trimStart s) ≤ String.length s.
Proof.
  induction s as [|c s IH]; simpl; [done|].
  destruct (is_white_space c); simpl; lia.
Qed.

Lemma trimEnd_length s : String.length (trimEnd s) ≤ String.length s.
Proof.
  induction s as [|c s IH]; simpl; [done|].
  destruct (trimEnd s); [destruct (is_white_space c)|]; simpl in *; lia.
Qed.

(** A non-empty string that [trim] leaves as it is starts with a
    character that is not white space. *)
Lemma trim_fixed_first s :
  trim s = s → s ≠ EmptyString →
  ∃ c r, s = String c r ∧ is_white_space c = false.
Proof.
  destruct s as [|c r]; [done|]. intros Ht _. exists c, r. split; [done|].
  destruct (is_white_space c) eqn:Hc; [|done].
  apply (f_equal String.length) in Ht. unfold trim in Ht. simpl in Ht.
  rewrite Hc in Ht.
  pose proof (trimEnd_length (trimStart r)). pose proof (trimStart_length r). lia.
Qed.

(** A line that starts with a character that is not white space is not
    skipped as empty. *)
Lemma trim_not_empty c r :
  is_white_space c = false → is_empty (trim (String c r)) = false.
Proof.
  intros Hc. unfold trim. cbn [trimStart]. rewrite Hc. cbn [trimEnd].
  destruct (trimEnd r); [by rewrite Hc|done].
Qed.

End SplitJoin.

(** ** Export and import of VMs *)

Module RoundTrip.
Import JsFacts SplitJoin Convert.

(** The string fields of a VM, in the order of the export. *)
Definition strings_of (vm : NewVirtualMachine) : list string :=
  [ vmId vm; vmName vm; vmStatus vm; vmIp vm; vmOs vm; vmOsVersion vm;
    hypervisor vm; hostname vm; hostModel vm; hostIp vm; hostOs vm; rack vm;
    deployedBy vm; user vm; department vm; startDate vm; endDate vm;
    jiraTicket vm; remarks vm ].

(** A string that is not empty and holds no comma, no double quote and
    no line feed. *)
Definition plain (s : string) : bool :=
  negb (is_empty s) && negb (includes_char comma s)
  && negb (includes_char quote s) && negb (includes_char newline s).

(** A string without white space at either end. *)
Definition trimmed (s : string) : bool := String.eqb (trim s) s.

(** The record that the import gives back for an exported VM: its
    fields without the [id], the date of deletion being [null]. *)
Definition imported (vm : VirtualMachine) : NewVirtualMachine :=
  let v := fields vm in
  {| vmId := vmId v; vmName := vmName v; vmStatus := vmStatus v;
     vmIp := vmIp v; internetAccess := internetAccess v; vmOs := vmOs v;
     vmOsVersion := vmOsVersion v; hypervisor := hypervisor v;
     hostname := hostname v; hostModel := hostModel v; hostIp := hostIp v;
     hostOs := hostOs v; rack := rack v; deployedBy := deployedBy v;
     user := user v; department := department v; startDate := startDate v;
     endDate := endDate v; jiraTicket := jiraTicket v; remarks := remarks v;
     dateDeleted := None |}.

(** Export followed by import. *)
Definition round_trip (vms : list VirtualMachine)
    : result (list NewVirtualMachine) :=
  convertCSVToVMs <$> VM.parseVMCSV (convertToCSV vms).

(** A VM whose fields are plain, its remarks starting with a space. *)
Definition padded_vm : VirtualMachine :=
  {| id := 7;
     fields :=
       {| vmId := "vm-1"; vmName := "build"; vmStatus := "Running";
          vmIp := "10.0.0.5"; internetAccess := true; vmOs := "Linux";
          vmOsVersion := "6.1"; hypervisor := "esx-3"; hostname := "host-a";
          hostModel := "R740"; hostIp := "10.0.0.1"; hostOs := "ESXi";
          rack := "R12"; deployedBy := "kim"; user := "lee";
          department := "QA"; startDate := "2024-01-01";
          endDate := "2024-12-31"; jiraTicket := "OPS-1";
          remarks := " nightly builds"; dateDeleted := None |} |}.

(** C9, as stated, fails: the fields of [padded_vm] are not empty and
    hold no comma, double quote or line feed, and the round trip returns
    its remarks without their leading space. *)
Lemma round_trip_counterexample :
  forallb plain (strings_of (fields padded_vm)) = true ∧
  (map remarks <$> round_trip [padded_vm]) = Ok ["nightly builds"] ∧
  remarks (fields padded_vm) ≠ "nightly builds".
Proof. split_and!; [reflexivity..|done]. Qed.

(** The fields of an exportable VM are plain and trimmed. *)
Definition exportable (vm : VirtualMachine) : bool :=
  forallb (λ s, plain s && trimmed s) (strings_of (fields vm)).

(** The cells of the exported row of a VM whose fields are plain. *)
Definition cells (vm : VirtualMachine) : list string :=
  let v := fields vm in
  [ vmId v; vmName v; vmStatus v; vmIp v;
    if internetAccess v then "true" else "false";
    vmOs v; vmOsVersion v; hypervisor v; hostname v; hostModel v; hostIp v;
    hostOs v; rack v; deployedBy v; user v; department v; startDate v;
    endDate v; jiraTicket v; remarks v ].

(** The headers that the VM parser reads from an exported file. *)
Definition imported_headers : list string :=
  parse_headers (join comma export_headers).

(** What is known of a plain, trimmed string. *)
Record field_ok (s : string) : Prop := {
  field_not_empty : s ≠ EmptyString;
  field_no_comma : includes_char comma s = false;
  field_no_quote : includes_char quote s = false;
  field_no_newline : includes_char newline s = false;
  field_trimmed : trim s = s }.

Lemma plain_trimmed_ok s : plain s && trimmed s = true → field_ok s.
Proof.
  unfold plain, trimmed. rewrite !andb_true_iff, !negb_true_iff.
  intros [[[[He Hc] Hq] Hn] Ht]. split; try done.
  - by apply is_empty_false.
  - by apply String.eqb_eq.
Qed.

Lemma exportable_fields vm :
  exportable vm = true → Forall field_ok (strings_of (fields vm)).
Proof.
  unfold exportable. rewrite forallb_forall, Forall_forall.
  intros H s Hs. apply plain_trimmed_ok, H. by apply list_elem_of_In.
Qed.

Lemma boolean_text_ok (b : bool) :
  let text := if b then "true" else "false" in
  includes_char comma text = false ∧ includes_char newline text = false ∧
  trim text = text.
Proof. by destruct b. Qed.

Lemma escape_plain s :
  includes_char comma s = false → includes_char quote s = false →
  escape s = s.
Proof. unfold escape. by intros -> ->. Qed.

Lemma export_cell_string vm header read :
  String.eqb header "internetAccess" = false →
  string_property header = Some read →
  field_ok (read (fields vm)) →
  export_cell vm header = read (fields vm).
Proof.
  intros Hh Hp [Hne Hc Hq _ _]. unfold export_cell, property_text.
  rewrite Hh, Hp. simpl. rewrite escape_plain by done.
  by destruct (read (fields vm)).
Qed.

Lemma export_row_cells vm :
  exportable vm = true → export_row vm = join comma (cells vm).
Proof.
  intros H%exportable_fields. unfold export_row. f_equal.
  unfold strings_of in H. repeat (apply Forall_cons in H as [? H]).
  unfold export_headers, cells. cbn [map].
  repeat (f_equal; [by apply export_cell_string|]).
  f_equal.
  { unfold export_cell, property_text. cbn [String.eqb Ascii.eqb Bool.eqb].
    by destruct (internetAccess (fields vm)). }
  repeat (f_equal; [by apply export_cell_string|]).
  f_equal. by apply export_cell_string.
Qed.

Lemma field_ok_cell s :
  field_ok s →
  includes_char comma s = false ∧ includes_char newline s = false ∧ trim s = s.
Proof. by intros []. Qed.

Lemma cells_ok vm :
  exportable vm = true →
  Forall (λ p, includes_char comma p = false ∧
               includes_char newline p = false ∧ trim p = p) (cells vm).
Proof.
  intros H%exportable_fields.
  unfold strings_of in H. repeat (apply Forall_cons in H as [? H]).
  unfold cells.
  repeat (apply Forall_cons; split;
          [first [by apply field_ok_cell | apply boolean_text_ok]|]).
  apply Forall_nil_2.
Qed.

Lemma row_values_cells vm :
  exportable vm = true → Strict.row_values (export_row vm) = cells vm.
Proof.
  intros H. rewrite export_row_cells by done. apply cells_ok in H.
  unfold Strict.row_values. rewrite split_join.
  - induction H as [|p l (_ & _ & Hp) _ IH]; simpl; [done|]. by rewrite Hp, IH.
  - done.
  - eapply Forall_impl; [done|]. by intros p (? & _).
Qed.

Lemma export_row_no_newline vm :
  exportable vm = true → includes_char newline (export_row vm) = false.
Proof.
  intros H. rewrite export_row_cells by done. apply cells_ok in H.
  apply includes_char_join; [done|].
  eapply Forall_impl; [done|]. by intros p (_ & ? & _).
Qed.

Lemma export_row_not_empty vm :
  exportable vm = true → is_empty (trim (export_row vm)) = false.
Proof.
  intros H. rewrite export_row_cells by done.
  apply exportable_fields, Forall_cons in H as [[Hne _ _ _ Ht] _].
  destruct (trim_fixed_first _ Ht Hne) as (c & r & Hid & Hc).
  unfold cells. rewrite Hid.
  change (join comma (String c r :: ?l)) with
    (String c (r +:+ String comma (join comma l))).
  by apply trim_not_empty.
Qed.

(** The object built from the cells of an exported row passes the check
    of the parser and converts to the record of the VM. *)
Lemma build_cells vm line :
  exportable vm = true →
  let o := Strict.build VM.header_cases imported_headers (cells vm) in
  VM.check line o = None ∧ convertCSVToVM o = imported vm.
Proof.
  intros H%exportable_fields.
  destruct vm as [i [f1 f2 f3 f4 b f5 f6 f7 f8 f9 f10 f11 f12 f13 f14 f15
                       f16 f17 f18 f19 d]].
  unfold strings_of in H. cbn [fields vmId vmName vmStatus vmIp vmOs
    vmOsVersion hypervisor hostname hostModel hostIp hostOs rack deployedBy
    user department startDate endDate jiraTicket remarks] in H.
  repeat (apply Forall_cons in H as [[? _ _ _ _] H]).
  repeat match goal with
         | Hne : ?f ≠ EmptyString |- _ => destruct f; [done|]; clear Hne
         end.
  destruct b; split; reflexivity.
Qed.

(** The object that the parser builds from the exported row of a VM. *)
Definition parsed (vm : VirtualMachine) : obj :=
  Strict.build VM.header_cases imported_headers (cells vm).

Lemma rows_exported vms i acc :
  Forall (λ vm, exportable vm = true) vms →
  Strict.rows VM.header_cases VM.check imported_headers i
    (map export_row vms) acc = Ok (acc ++ map parsed vms)%list.
Proof.
  intros H. revert i acc.
  induction H as [|vm vms Hvm _ IH]; intros i acc; cbn [map Strict.rows].
  - by rewrite app_nil_r.
  - rewrite export_row_not_empty, row_values_cells by done.
    change (length (cells vm) =? length imported_headers) with true.
    cbn [negb].
    destruct (build_cells vm (i + 1) Hvm) as [-> _].
    rewrite IH. by rewrite <- app_assoc.
Qed.

Lemma convertToCSV_lines vms :
  vms ≠ [] →
  Forall (λ vm, exportable vm = true) vms →
  split newline (convertToCSV vms) =
    join comma export_headers :: map export_row vms.
Proof.
  intros Hne H. unfold convertToCSV.
  destruct vms as [|vm vms]; [done|]. cbn [length Nat.eqb].
  apply split_join; [done|].
  apply Forall_cons. split; [reflexivity|].
  apply Forall_fmap. eapply Forall_impl; [done|].
  intros v Hv. by apply export_row_no_newline.
Qed.

Lemma convert_parsed vms :
  Forall (λ vm, exportable vm = true) vms →
  convertCSVToVMs (map parsed vms) = map imported vms.
Proof.
  unfold convertCSVToVMs. induction 1 as [|vm vms Hvm _ IH]; [done|].
  cbn [map]. f_equal; [|done].
  by destruct (build_cells vm 0 Hvm) as [_ Hconvert].
Qed.

(** C9, amended.  VM export and import round trip.  For every
    non-empty list of VMs whose string fields are all non-empty, contain
    no comma, double quote or line feed, and have no white space at
    either end, [convertCSVToVMs] applied to [parseVMCSV] of
    [convertToCSV] of the list returns the records of the list, equal to
    the originals on every field but [id], which is dropped, and
    [dateDeleted], which is [null]; [internetAccess] is the original
    boolean. *)
Theorem export_import_round_trip (vms : list VirtualMachine) :
  vms ≠ [] →
  Forall (λ vm, exportable vm = true) vms →
  round_trip vms = Ok (map imported vms).
Proof.
  intros Hne H. unfold round_trip, VM.parseVMCSV, Strict.parse.
  rewrite convertToCSV_lines by done.
  destruct vms as [|vm vms]; [done|].
  change (first_line (_ :: _)) with (join comma export_headers).
  fold imported_headers. cbn [length map Nat.ltb Nat.leb].
  change (List.filter _ VM.required) with (@nil string).
  cbn [length Nat.ltb Nat.leb drop].
  change (export_row vm :: map export_row vms) with (map export_row (vm :: vms)).
  rewrite rows_exported by done. cbn [app mbind result_bind map length Nat.eqb].
  cbn [fmap result_fmap]. f_equal. by apply (convert_parsed (vm :: vms)).
Qed.

(** Two VMs that can be exported. *)
Definition build_vm : VirtualMachine :=
  {| id := 1;
     fields :=
       {| vmId := "vm-1"; vmName := "build"; vmStatus := "Running";
          vmIp := "10.0.0.5"; internetAccess := true; vmOs := "Linux";
          vmOsVersion := "6.1"; hypervisor := "esx-3"; hostname := "host-a";
          hostModel := "R740"; hostIp := "10.0.0.1"; hostOs := "ESXi";
          rack := "R12"; deployedBy := "kim"; user := "lee";
          department := "QA"; startDate := "2024-01-01";
          endDate := "2024-12-31"; jiraTicket := "OPS-1";
          remarks := "nightly builds"; dateDeleted := Some "2025-01-01" |} |}.
Definition test_vm : VirtualMachine :=
  {| id := 2;
     fields :=
       {| vmId := "vm-2"; vmName := "test"; vmStatus := "Stopped";
          vmIp := "N/A"; internetAccess := false; vmOs := "Windows";
          vmOsVersion := "11"; hypervisor := "esx-4"; hostname := "host-b";
          hostModel := "R640"; hostIp := "10.0.0.2"; hostOs := "ESXi";
          rack := "R13"; deployedBy := "park"; user := "choi";
          department := "Dev"; startDate := "2024-02-01";
          endDate := "N/A"; jiraTicket := "OPS-2";
          remarks := "yes"; dateDeleted := None |} |}.

Lemma export_import_round_trip_witness :
  round_trip [build_vm; test_vm] = Ok [imported build_vm; imported test_vm].
Proof.
  apply (export_import_round_trip [build_vm; test_vm]); [done|].
  by repeat constructor.
Defined.

End RoundTrip.

(** ** What the strict parsers return and which line they report *)

Module StrictRows.
Import JsFacts.

(** The data lines that are not skipped as empty. *)
Definition kept (lines : list string) : list string :=
  List.filter (λ line, negb (is_empty (trim line))) lines.

Section Strict.
Variable required : list string.
Variable header_cases : cases.
Variable check : nat → obj → option Error.
Hypothesis check_names_line :
  ∀ line o e, check line o = Some e → line_of e = Some line.

(** The object of a data line. *)
Definition record_of (headers : list string) (line : string) : obj :=
  Strict.build header_cases headers (Strict.row_values line).

Lemma rows_returned headers i lines acc records :
  Strict.rows header_cases check headers i lines acc = Ok records →
  records = (acc ++ map (record_of headers) (kept lines))%list.
Proof.
  revert i acc. induction lines as [|line rest IH]; intros i acc; simpl.
  - intros [= <-]. by rewrite app_nil_r.
  - destruct (is_empty (trim line)); simpl; [by apply IH|].
    destruct (negb (_ =? _)); [done|].
    destruct (check _ _); [done|].
    intros ->%IH. by rewrite <- app_assoc.
Qed.

Lemma rows_thrown headers i lines acc e n :
  Strict.rows header_cases check headers i lines acc = Throw e →
  line_of e = Some n →
  ∃ k line, lines !! k = Some line ∧ n = i + k + 1 ∧
            is_empty (trim line) = false.
Proof.
  revert i acc. induction lines as [|line rest IH]; intros i acc; simpl; [done|].
  destruct (is_empty (trim line)) eqn:Hempty.
  - intros Hrows Hline. destruct (IH _ _ Hrows Hline) as (k & l & Hk & -> & Hl).
    exists (S k), l. split_and!; [done|lia|done].
  - destruct (negb (_ =? _)).
    { intros [= <-] [= <-]. exists 0, line. split_and!; [done|lia|done]. }
    destruct (check _ _) as [e'|] eqn:Hcheck.
    { intros [= <-] Hline. apply check_names_line in Hcheck.
      rewrite Hcheck in Hline. injection Hline as <-.
      exists 0, line. split_and!; [done|lia|done]. }
    intros Hrows Hline. destruct (IH _ _ Hrows Hline) as (k & l & Hk & -> & Hl).
    exists (S k), l. split_and!; [done|lia|done].
Qed.

(** What holds of a parser built on the shared text. *)
Definition faithful (parse : string → result (list obj)) : Prop :=
  ∀ csvContent,
    let lines := split newline csvContent in
    let headers := parse_headers (first_line lines) in
    (∀ records,
       parse csvContent = Ok records →
       records = map (record_of headers) (kept (drop 1 lines))) ∧
    (∀ e n,
       parse csvContent = Throw e → line_of e = Some n →
       2 ≤ n ≤ length lines ∧
       ∃ line, lines !! (n - 1) = Some line ∧ is_empty (trim line) = false).

Lemma parse_faithful : faithful (Strict.parse required header_cases check).
Proof.
  intros csv lines headers. unfold Strict.parse. fold lines headers.
  destruct (length lines <? 2); [split; [done|by intros e n [= <-]]|].
  destruct (0 <? _); [split; [done|by intros e n [= <-]]|]. split.
  - intros records Hrows. by apply rows_returned in Hrows.
  - intros e n Hrows Hline.
    destruct (rows_thrown _ _ _ _ _ _ Hrows Hline) as (k & line & Hk & -> & Hl).
    rewrite lookup_drop in Hk. pose proof (lookup_lt_Some _ _ _ Hk).
    split; [lia|]. exists line. split; [|done].
    by replace (1 + k + 1 - 1) with (1 + k) by lia.
Qed.

End Strict.

Lemma vm_faithful : faithful VM.header_cases VM.parseVMCSV.
Proof.
  intros csv lines headers.
  destruct (parse_faithful VM.required VM.header_cases VM.check
              HeaderRow.vm_check_names_line csv) as [Hok Hthrow].
  unfold VM.parseVMCSV.
  destruct (Strict.parse _ _ _ _) as [vms|e'] eqn:Hparse; simpl; split.
  - intros records. destruct (length vms =? 0); [done|].
    intros [= <-]. by apply Hok.
  - intros e n. by destruct (length vms =? 0); [intros [= <-]|].
  - done.
  - intros e n [= <-]. by apply Hthrow.
Qed.

(** X1.  On success, [parseComponentCSV], [parseAccessoryCSV] and
    [parseVMCSV] return one record for each data line that is not empty,
    in the order of the file, none being dropped; and when the error
    they throw names a line, that line exists in the file, comes after
    the header and is not empty. *)
Theorem strict_parsers_faithful :
  faithful Component.header_cases Component.parseComponentCSV ∧
  faithful Accessory.header_cases Accessory.parseAccessoryCSV ∧
  faithful VM.header_cases VM.parseVMCSV.
Proof.
  split_and!.
  - apply parse_faithful, HeaderRow.component_check_names_line.
  - apply parse_faithful, HeaderRow.accessory_check_names_line.
  - apply vm_faithful.
Qed.

(** A file with an empty line between two rows, and one whose last row
    lacks its category. *)
Definition spaced_file : string :=
  "name,category" +:+ nl +:+ "Fan,Cooling" +:+ nl +:+ nl +:+ "SSD,Storage".
Definition lacking_file : string :=
  "name,category" +:+ nl +:+ "Fan,Cooling" +:+ nl +:+ nl +:+ "SSD,".

Lemma strict_parsers_faithful_witness :
  Component.parseComponentCSV spaced_file =
    Ok [ {[ "name" := "Fan"; "category" := "Cooling" ]};
         {[ "name" := "SSD"; "category" := "Storage" ]} ] ∧
  Component.parseComponentCSV lacking_file = Throw (MissingValues 4) ∧
  2 ≤ 4 ≤ length (split newline lacking_file).
Proof.
  destruct strict_parsers_faithful as (Hcomponent & _).
  split; [reflexivity|]. split; [reflexivity|].
  destruct (Hcomponent lacking_file) as [_ Hthrow].
  by apply (Hthrow (MissingValues 4) 4).
Defined.

End StrictRows.

(** ** The shape of an exported VM file *)

Module ExportShape.
Import JsFacts SplitJoin Convert RoundTrip.

Lemma or_else_some_empty s : or_else (Some s) EmptyString = s.
Proof. by destruct s. Qed.

(** The exported row is the join of the escaped cells. *)
Lemma export_row_escaped vm :
  export_row vm = join comma (map escape (cells vm)).
Proof.
  unfold export_row. f_equal.
  transitivity (map (λ t, or_else (Some (escape t)) EmptyString) (cells vm));
    [reflexivity|].
  apply map_ext. intros t. apply or_else_some_empty.
Qed.

Lemma includes_char_double_quotes c s :
  includes_char c (double_quotes s) = includes_char c s.
Proof.
  induction s as [|d s IH]; [done|]. cbn [double_quotes includes_char].
  destruct (Ascii.eqb d quote) eqn:Hd; cbn [includes_char]; rewrite IH; [|done].
  apply Ascii.eqb_eq in Hd as ->. by rewrite orb_assoc, orb_diag.
Qed.

Lemma includes_char_escape c s :
  includes_char c (escape s) =
  includes_char c s ||
  ((includes_char comma s || includes_char quote s) && Ascii.eqb quote c).
Proof.
  unfold escape. destruct (_ || _); [|by rewrite andb_false_l, orb_false_r].
  rewrite andb_true_l. unfold dq.
  rewrite append_cons, append_nil_l. cbn [includes_char].
  rewrite includes_char_app, includes_char_double_quotes. cbn [includes_char].
  destruct (Ascii.eqb quote c), (includes_char c s); done.
Qed.

(** The number of pieces of a split: one more than the separators. *)
Lemma split_app_length sep a b :
  length (split sep (a +:+ String sep b)) =
  length (split sep a) + length (split sep b).
Proof.
  induction a as [|c a IH].
  - rewrite append_nil_l. simpl. by rewrite Ascii.eqb_refl.
  - rewrite append_cons. simpl. destruct (Ascii.eqb c sep); simpl; [lia|].
    pose proof (split_not_nil sep a).
    pose proof (split_not_nil sep (a +:+ String sep b)).
    destruct (split sep a), (split sep (a +:+ String sep b)); simpl in *; done.
Qed.

Lemma split_join_length sep parts :
  parts ≠ [] →
  length (split sep (join sep parts)) =
  foldr (λ p n, length (split sep p) + n) 0 parts.
Proof.
  induction parts as [|p [|q rest] IH]; [done| |]; intros _.
  - simpl. lia.
  - change (join sep (p :: q :: rest)) with (p +:+ String sep (join sep (q :: rest))).
    rewrite split_app_length, IH by done. done.
Qed.

Lemma split_includes_length sep s :
  includes_char sep s = true → 2 ≤ length (split sep s).
Proof.
  induction s as [|c s IH]; simpl; [done|].
  destruct (Ascii.eqb c sep); simpl.
  - intros _. pose proof (split_length_pos sep s). lia.
  - intros H%IH. destruct (split sep s); simpl in *; lia.
Qed.

Lemma pieces_with_separator sep parts :
  Exists (λ p, includes_char sep p = true) parts →
  length parts + 1 ≤ foldr (λ p n, length (split sep p) + n) 0 parts.
Proof.
  assert (∀ l, length l ≤ foldr (λ p n, length (split sep p) + n) 0 l) as Hle.
  { induction l as [|p l IH]; simpl; [done|].
    pose proof (split_length_pos sep p). lia. }
  induction 1 as [p l Hp|p l _ IH]; simpl.
  - apply split_includes_length in Hp. specialize (Hle l). lia.
  - pose proof (split_length_pos sep p). lia.
Qed.

Lemma trimEnd_empty_blank s :
  trimEnd s = EmptyString → HeaderCase.blank s = true.
Proof.
  induction s as [|c s IH]; simpl; [done|].
  destruct (trimEnd s); [|done].
  destruct (is_white_space c); [|done]. intros _. by apply IH.
Qed.

Lemma trimStart_blank s :
  HeaderCase.blank (trimStart s) = true → HeaderCase.blank s = true.
Proof.
  induction s as [|c s IH]; simpl; [done|].
  destruct (is_white_space c) eqn:Hc; [done|]. simpl. by rewrite Hc.
Qed.

Lemma blank_no_comma s :
  HeaderCase.blank s = true → includes_char comma s = false.
Proof.
  induction s as [|c s IH]; simpl; [done|].
  intros [Hc Hs]%andb_true_iff. rewrite IH, orb_false_r by done.
  destruct (Ascii.eqb c comma) eqn:Heq; [|done].
  apply Ascii.eqb_eq in Heq as ->. done.
Qed.

(** A line that holds a comma is not skipped as empty. *)
Lemma comma_line_not_empty s :
  includes_char comma s = true → is_empty (trim s) = false.
Proof.
  intros Hs. destruct (is_empty (trim s)) eqn:He; [|done].
  apply is_empty_true, trimEnd_empty_blank, trimStart_blank, blank_no_comma in He.
  congruence.
Qed.

(** The texts that the exporter reads from a VM hold no line feed. *)
Definition on_one_line (vm : VirtualMachine) : Prop :=
  Forall (λ s, includes_char newline s = false) (strings_of (fields vm)).

Lemma export_row_on_one_line vm :
  on_one_line vm → includes_char newline (export_row vm) = false.
Proof.
  intros H. rewrite export_row_escaped. apply includes_char_join; [done|].
  apply Forall_fmap. unfold on_one_line, strings_of in H.
  repeat (apply Forall_cons in H as [? H]).
  assert (∀ s, includes_char newline s = false →
               includes_char newline (escape s) = false) as Hescape.
  { intros s Hs. rewrite includes_char_escape, Hs.
    by rewrite andb_false_r. }
  unfold cells.
  repeat (apply Forall_cons; split;
          [first [by apply Hescape
                 | by destruct (internetAccess (fields vm))]|]).
  apply Forall_nil_2.
Qed.

Lemma exported_lines vms :
  vms ≠ [] → Forall on_one_line vms →
  split newline (convertToCSV vms) =
    join comma export_headers :: map export_row vms.
Proof.
  intros Hne H. unfold convertToCSV.
  destruct vms as [|vm vms]; [done|]. cbn [length Nat.eqb].
  apply split_join; [done|].
  apply Forall_cons. split; [reflexivity|].
  apply Forall_fmap. eapply Forall_impl; [done|].
  intros v Hv. by apply export_row_on_one_line.
Qed.

Lemma comma_row_mismatched vm s :
  s ∈ strings_of (fields vm) → includes_char comma s = true →
  MalformedRow.mismatched imported_headers (export_row vm) = true.
Proof.
  intros Hin Hs. unfold MalformedRow.mismatched, Strict.row_values.
  assert (Exists (λ p, includes_char comma p = true) (map escape (cells vm)))
    as Hex.
  { apply Exists_fmap, Exists_exists. exists s. split.
    - unfold strings_of in Hin. unfold cells.
      repeat (apply elem_of_cons in Hin as [->|Hin];
              [rewrite !elem_of_cons; tauto|]).
      by apply elem_of_nil in Hin.
    - change (includes_char comma (escape s) = true).
      by rewrite includes_char_escape, Hs. }
  rewrite andb_true_iff, !negb_true_iff. split.
  - apply comma_line_not_empty. rewrite export_row_escaped.
    change (map escape (cells vm)) with
      (escape (vmId (fields vm)) ::
       map escape (tail (cells vm))).
    change (join comma (?x :: map escape (tail (cells vm)))) with
      (x +:+ String comma (join comma (map escape (tail (cells vm))))).
    rewrite includes_char_app. cbn [includes_char].
    rewrite Ascii.eqb_refl. by rewrite orb_true_r.
  - apply Nat.eqb_neq. rewrite length_map, export_row_escaped.
    rewrite split_join_length by done.
    apply pieces_with_separator in Hex. rewrite length_map in Hex.
    change (length (cells vm)) with 20 in Hex.
    change (length imported_headers) with 20. lia.
Qed.

Lemma vm_no_data_row csvContent :
  VM.parseVMCSV csvContent = Throw NoDataRow ↔
  length (split newline csvContent) < 2.
Proof.
  unfold VM.parseVMCSV.
  rewrite <- (HeaderRow.parse_no_data_row VM.required VM.header_cases VM.check)
    by apply HeaderRow.vm_check_names_line.
  destruct (Strict.parse _ _ _ _) as [records|e]; simpl; [|done].
  by destruct (length records =? 0).
Qed.

(** X2.  Importing an exported file fails for want of a data row exactly
    when no VM was exported; and when the text of some exported VM holds
    a comma, no text holding a line feed, the import of the exported
    file throws: the exporter wraps the text in double quotes, which the
    parser, splitting on every comma, does not read. *)
Theorem export_then_import (vms : list VirtualMachine) :
  (VM.parseVMCSV (convertToCSV vms) = Throw NoDataRow ↔ vms = []) ∧
  (Forall on_one_line vms →
   Exists (λ vm, ∃ s, s ∈ strings_of (fields vm) ∧
                      includes_char comma s = true) vms →
   returns (VM.parseVMCSV (convertToCSV vms)) = false).
Proof.
  split.
  - rewrite vm_no_data_row.
    destruct vms as [|vm vms]; [split; [done|by intros _; cbn; lia]|].
    split; [|done]. unfold convertToCSV. cbn [length Nat.eqb map].
    change (join newline (?h :: export_row vm :: ?rest)) with
      (h +:+ String newline (join newline (export_row vm :: rest))).
    rewrite split_app_length.
    pose proof (split_length_pos newline (join comma export_headers)).
    pose proof (split_length_pos newline
                  (join newline (export_row vm :: map export_row vms))).
    lia.
  - intros Hlines Hcomma.
    assert (vms ≠ []) as Hne by (by destruct Hcomma).
    destruct (MalformedRow.vm_surfaces_mismatch (convertToCSV vms)) as [Hthrow _].
    apply Exists_exists in Hcomma as (vm & Hvm & s & Hs & Hc).
    apply (Hthrow (export_row vm)).
    + rewrite exported_lines by done. cbn [drop]. rewrite drop_0.
      by apply list_elem_of_fmap_2.
    + rewrite exported_lines by done.
      by apply (comma_row_mismatched vm s).
Qed.

(** A VM whose remarks hold a comma. *)
Definition comma_vm : VirtualMachine :=
  {| id := 3;
     fields :=
       {| vmId := "vm-3"; vmName := "stage"; vmStatus := "Running";
          vmIp := "10.0.0.7"; internetAccess := false; vmOs := "Linux";
          vmOsVersion := "6.1"; hypervisor := "esx-3"; hostname := "host-c";
          hostModel := "R740"; hostIp := "10.0.0.3"; hostOs := "ESXi";
          rack := "R14"; deployedBy := "kim"; user := "lee";
          department := "QA"; startDate := "2024-03-01";
          endDate := "2024-09-30"; jiraTicket := "OPS-3";
          remarks := "staging, shared"; dateDeleted := None |} |}.

Lemma export_then_import_witness :
  returns (VM.parseVMCSV (convertToCSV [build_vm; comma_vm])) = false ∧
  VM.parseVMCSV (convertToCSV [build_vm; comma_vm]) = Throw (ColumnCount 3 21 20).
Proof.
  split; [|reflexivity].
  apply (export_then_import [build_vm; comma_vm]).
  - repeat constructor.
  - apply Exists_cons_tl, Exists_cons_hd. exists "staging, shared".
    split; [|done]. unfold strings_of. rewrite !elem_of_cons. tauto.
Defined.

End ExportShape.

(** ** Cells of the asset parser *)

Module AssetCells.
Import JsFacts SplitJoin Asset.

Lemma strip_last_quoted m : strip_last (m +:+ dq) = Some m.
Proof.
  induction m as [|c m IH]; [done|].
  rewrite append_cons. cbn [strip_last]. rewrite IH.
  by destruct (m +:+ dq) eqn:Hm; [destruct m|].
Qed.

(** The removal of the quotes returns the text between them. *)
Lemma unquote_quoted m :
  all_dot m = true → unquote (dq +:+ m +:+ dq) = m.
Proof.
  intros Hm. unfold dq at 1. rewrite append_cons, append_nil_l.
  unfold unquote. rewrite Ascii.eqb_refl, strip_last_quoted. by rewrite Hm.
Qed.

Lemma trimEnd_last s c :
  is_white_space c = false →
  trimEnd (s +:+ String c EmptyString) = s +:+ String c EmptyString.
Proof.
  intros Hc. induction s as [|d s IH].
  - rewrite append_nil_l. simpl. by rewrite Hc.
  - rewrite append_cons. cbn [trimEnd]. rewrite IH.
    by destruct (s +:+ String c EmptyString) eqn:Hs; [destruct s|].
Qed.

Lemma append_assoc (a b c : string) : (a +:+ b) +:+ c = a +:+ (b +:+ c).
Proof.
  induction a as [|x a IH]; [done|]. by rewrite !append_cons, IH.
Qed.

(** White space around a quoted cell is removed before the quotes. *)
Lemma cell_quoted before m after :
  HeaderCase.blank before = true → HeaderCase.blank after = true →
  all_dot m = true →
  cell (before +:+ dq +:+ m +:+ dq +:+ after) = m.
Proof.
  intros Hb Ha Hm. unfold cell, trim.
  rewrite HeaderCase.blank_trimStart by done.
  unfold dq at 1. rewrite append_cons, append_nil_l. cbn [trimStart].
  change (is_white_space quote) with false. cbv iota.
  rewrite <- (append_nil_l (m +:+ dq +:+ after)), <- append_cons.
  fold dq. rewrite <- !append_assoc.
  rewrite HeaderCase.blank_trimEnd by done.
  unfold dq at 2. rewrite trimEnd_last by done. fold dq.
  rewrite append_assoc. by apply unquote_quoted.
Qed.

Lemma forEach_skipped values headers index st :
  Forall (λ value, skipped value = true) values →
  forEach (assign values) headers index st = st.
Proof.
  intros Hall. revert index st.
  induction headers as [|header rest IH]; intros index st; simpl; [done|].
  rewrite IH. unfold assign.
  destruct (values !! index) as [value|] eqn:Hv; [|done].
  by rewrite (Forall_lookup_1 _ _ _ _ Hall Hv).
Qed.

Lemma rows_nothing_stored headers lines acc :
  Forall (λ line, Forall (λ value, skipped value = true)
                         (row_values (length headers) line)) lines →
  rows headers lines acc = acc.
Proof.
  intros H. revert acc. induction H as [|line rest Hline _ IH]; intros acc; [done|].
  cbn [rows]. destruct (is_empty (trim line)); [done|].
  by rewrite forEach_skipped.
Qed.

(** X3.  The asset parser drops the rows that hold nothing: on an input
    of two lines or more, when every value of every data line, trimmed,
    unquoted and brought to the length of the header, is empty or
    [N/A], it returns the empty list and does not throw.  And it
    removes the double quotes around a cell, also when white space
    surrounds them: let [m] be a text without comma, line feed or
    carriage return that is neither empty nor [N/A], and let [before]
    and [after] be runs of white space without line feed; the file
    whose header is [name] and whose only data line is [before], a
    double quote, [m], a double quote and [after] gives one asset, with
    [m] as its name and no other property. *)
Theorem asset_cells_read :
  (∀ csvContent,
     let lines := split newline csvContent in
     let headers := parse_headers (first_line lines) in
     2 ≤ length lines →
     Forall (λ line, Forall (λ value, skipped value = true)
                            (row_values (length headers) line))
            (drop 1 lines) →
     parseCSV csvContent = Ok []) ∧
  (∀ before m after,
     HeaderCase.blank before = true → HeaderCase.blank after = true →
     includes_char newline before = false →
     includes_char newline after = false →
     all_dot m = true → includes_char comma m = false →
     skipped m = false →
     parseCSV ("name" +:+ nl +:+ before +:+ dq +:+ m +:+ dq +:+ after)
       = Ok [ {[ "name" := m ]} ]).
Proof.
  split.
  - intros csv lines headers Hlen Hall. unfold parseCSV. fold lines headers.
    destruct (length lines <? 2) eqn:Hlt; [apply Nat.ltb_lt in Hlt; lia|].
    by rewrite rows_nothing_stored.
  - intros before m after Hb Ha Hnb Hna Hm Hc Hs.
    set (line := before +:+ dq +:+ m +:+ dq +:+ after).
    assert (includes_char newline m = false) as Hnm.
    { clear -Hm. induction m as [|c m IH]; [done|]. simpl in *.
      apply andb_true_iff in Hm as [Hc Hm]. rewrite IH, orb_false_r by done.
      unfold is_line_terminator in Hc. by destruct (Ascii.eqb c newline). }
    assert (includes_char newline line = false) as Hline.
    { unfold line. by rewrite !includes_char_app, Hnb, Hna, Hnm. }
    assert (includes_char comma line = false) as Hcomma.
    { unfold line. rewrite !includes_char_app, Hc.
      by rewrite (ExportShape.blank_no_comma before),
        (ExportShape.blank_no_comma after). }
    assert (is_empty (trim line) = false) as Hne.
    { destruct (is_empty (trim line)) eqn:He; [|done].
      apply is_empty_true, ExportShape.trimEnd_empty_blank,
        ExportShape.trimStart_blank in He.
      assert (∀ a b, HeaderCase.blank (a +:+ b) = true →
                     HeaderCase.blank b = true) as Hsuffix.
      { clear. induction a as [|c a IH]; intros b; [done|].
        rewrite append_cons. simpl. intros [_ H]%andb_true_iff. by apply IH. }
      unfold line in He. by apply Hsuffix in He. }
    unfold parseCSV.
    change ("name" +:+ nl +:+ line) with ("name" +:+ String newline line).
    rewrite split_app_sep, (split_no_sep newline line) by done.
    change (parse_headers (first_line ["name"; line])) with ["name"].
    cbn [length Nat.ltb Nat.leb drop].
    cbn [rows]. rewrite Hne. unfold row_values.
    rewrite (split_no_sep comma line) by done. cbn [map length].
    unfold line at 1. rewrite cell_quoted by done.
    unfold pad, truncate. cbn [length Nat.sub replicate app Nat.ltb Nat.leb].
    cbn [forEach]. unfold assign at 1. cbn [lookup list_lookup]. rewrite Hs.
    reflexivity.
Qed.

(** A file whose rows hold nothing, and a quoted name. *)
Definition hollow_file : string :=
  "name,status" +:+ nl +:+ "N/A," +:+ nl +:+ " , " +:+ nl +:+ ",".

Lemma asset_cells_read_witness :
  parseCSV hollow_file = Ok [] ∧
  parseCSV ("name" +:+ nl +:+ " " +:+ dq +:+ "Laptop 7" +:+ dq +:+ "  ")
    = Ok [ {[ "name" := "Laptop 7" ]} ].
Proof.
  destruct asset_cells_read as [Hhollow Hquoted]. split.
  - apply (Hhollow hollow_file); [vm_compute; lia|].
    repeat (constructor; [by repeat constructor|]). constructor.
  - by apply (Hquoted " " "Laptop 7" "  ").
Defined.

End AssetCells.

(** ** Converted records have their texts filled *)

Module Filled.
Import JsFacts Convert.

Lemma or_else_filled a d : d ≠ EmptyString → or_else a d ≠ EmptyString.
Proof. by destruct a as [[|c r]|]. Qed.

Lemma trimEnd_idempotent s : trimEnd (trimEnd s) = trimEnd s.
Proof.
  induction s as [|c s IH]; [done|]. cbn [trimEnd].
  destruct (trimEnd s) as [|d r] eqn:Hs.
  - destruct (is_white_space c) eqn:Hc; [done|]. simpl. by rewrite Hc.
  - cbn [trimEnd]. cbn [trimEnd] in IH. by rewrite IH.
Qed.

Lemma trimStart_first s :
  trimStart s = EmptyString ∨
  ∃ c r, trimStart s = String c r ∧ is_white_space c = false.
Proof.
  induction s as [|c s IH]; simpl; [by left|].
  destruct (is_white_space c) eqn:Hc; [done|]. right. by exists c, s.
Qed.

(** [trim] leaves a trimmed string as it is. *)
Lemma trim_idempotent s : trim (trim s) = trim s.
Proof.
  unfold trim. destruct (trimStart_first s) as [->|(c & r & -> & Hc)]; [done|].
  assert (trimStart (trimEnd (String c r)) = trimEnd (String c r)) as ->.
  { cbn [trimEnd]. destruct (trimEnd r); [rewrite Hc|]; simpl; by rewrite Hc. }
  apply trimEnd_idempotent.
Qed.

Section Schema.
Variable AssetStatus_AVAILABLE : string.
Variable AccessoryStatus : Type.
Variables AVAILABLE BORROWED RETURNED DEFECTIVE : AccessoryStatus.
Variable parseInt : string → number.

Lemma condition_of_filled csvAsset :
  condition_of csvAsset ≠ EmptyString ∧
  trim (condition_of csvAsset) = condition_of csvAsset.
Proof.
  unfold condition_of. destruct (get "condition" csvAsset) as [c|]; [|done].
  destruct (negb (is_empty c)); [|done]. cbn [andb].
  destruct (String.eqb (trim c) EmptyString) eqn:Ht; [done|]. cbn [negb].
  destruct (_ || _); [done|]. destruct (_ || _); [done|].
  split; [by apply String.eqb_neq|apply trim_idempotent].
Qed.

(** X4.  Every VM returned by [convertCSVToVMs] has all its string fields
    filled; every asset returned by [convertCSVToAssets] has a category
    and a condition, the condition without white space around it, and a
    status when [AssetStatus.AVAILABLE] is not the empty string; every
    component and accessory has its notes. *)
Theorem converted_texts_filled :
  (∀ csvVMs,
     Forall (λ vm, Forall (λ s, s ≠ EmptyString) (RoundTrip.strings_of vm))
            (convertCSVToVMs csvVMs)) ∧
  (∀ csvAssets,
     Forall (λ asset,
               asset_category asset ≠ EmptyString ∧
               asset_condition asset ≠ EmptyString ∧
               trim (asset_condition asset) = asset_condition asset ∧
               (AssetStatus_AVAILABLE ≠ EmptyString →
                asset_status asset ≠ EmptyString))
            (convertCSVToAssets AssetStatus_AVAILABLE csvAssets)) ∧
  (∀ csvComponents,
     Forall (λ component, component_notes component ≠ EmptyString)
            (convertCSVToComponents parseInt csvComponents)) ∧
  (∀ csvAccessories,
     Forall (λ accessory, accessory_notes accessory ≠ EmptyString)
            (convertCSVToAccessories AccessoryStatus AVAILABLE BORROWED
               RETURNED DEFECTIVE parseInt csvAccessories)).
Proof.
  split_and!; intros l; apply Forall_fmap, Forall_true; intros csv.
  - unfold RoundTrip.strings_of. repeat constructor; by apply or_else_filled.
  - destruct (condition_of_filled csv) as [Hc Ht].
    split_and!; [by apply or_else_filled|done|done|apply or_else_filled].
  - by apply or_else_filled.
  - by apply or_else_filled.
Qed.

End Schema.

(** The theorem at an asset that holds a serial number only. *)
Lemma converted_texts_filled_witness :
  Forall (λ asset, asset_category asset ≠ EmptyString ∧
                   asset_condition asset ≠ EmptyString ∧
                   asset_status asset ≠ EmptyString)
         (convertCSVToAssets "available" [ {[ "serialNumber" := "SN-7" ]} ]).
Proof.
  destruct (converted_texts_filled "available" string "available" "borrowed"
              "returned" "defective" Converters.parse_decimal)
    as (_ & Hassets & _).
  eapply Forall_impl; [apply Hassets|].
  intros asset (Hcategory & Hcondition & _ & Hstatus).
  split_and!; [done..|]. by apply Hstatus.
Defined.

End Filled.

(** ** The pages of the IAM accounts table *)

Module Pages.
Import IAMPage.

Local Open Scope Z_scope.

(** The number of pages is the least number of pages that hold all the
    items. *)
Lemma totalPages_spec totalItems itemsPerPage :
  0 < itemsPerPage → 0 ≤ totalItems →
  let pages := totalPages totalItems itemsPerPage in
  (pages - 1) * itemsPerPage < totalItems ≤ pages * itemsPerPage ∧ 0 ≤ pages.
Proof.
  intros Hper Hitems pages. unfold pages, totalPages.
  pose proof (Z.mul_div_le (- totalItems) itemsPerPage Hper).
  pose proof (Z.mul_succ_div_gt (- totalItems) itemsPerPage Hper).
  nia.
Qed.

Lemma paginated_take_drop {A} currentPage itemsPerPage (l : list A) :
  1 ≤ currentPage → 0 < itemsPerPage →
  paginatedAccounts currentPage itemsPerPage l =
  take (Z.to_nat itemsPerPage)
       (drop (Z.to_nat ((currentPage - 1) * itemsPerPage)) l).
Proof.
  intros Hp Hper. unfold paginatedAccounts, slice.
  set (start := (currentPage - 1) * itemsPerPage).
  assert (0 ≤ start) by (unfold start; nia).
  destruct (start <? 0) eqn:Hs; [apply Z.ltb_lt in Hs; lia|].
  destruct (start + itemsPerPage <? 0) eqn:He; [apply Z.ltb_lt in He; lia|].
  destruct (decide (Z.of_nat (length l) ≤ start)) as [Hge|Hlt].
  - rewrite !Z.min_r by lia. rewrite Z.sub_diag. simpl.
    rewrite (drop_ge l (Z.to_nat start)) by lia. by rewrite take_nil.
  - rewrite (Z.min_l start) by lia.
    apply list_eq. intros i. rewrite !lookup_take, !lookup_drop.
    repeat case_decide; try done; try lia.
    symmetry. apply lookup_ge_None. lia.
Qed.

Lemma pages_joined {A} (n k : nat) (l : list A) :
  concat ((λ i, take n (drop (i * n) l)) <$> seq 0 k) = take (k * n) l.
Proof.
  induction k as [|k IH]; [done|].
  rewrite seq_S, fmap_app, concat_app, IH. simpl. rewrite app_nil_r.
  rewrite take_take_drop. f_equal. lia.
Qed.

(** X5.  The pages of the table divide the filtered accounts: one after the
    other, the pages from 1 to [totalPages] give back the list; each of
    them holds at least one account and at most [itemsPerPage]; a page
    after the last shows nothing. *)
Theorem pages_divide_the_list {A} (itemsPerPage : Z) (filtered : list A) :
  0 < itemsPerPage →
  let pages := totalPages (Z.of_nat (length filtered)) itemsPerPage in
  concat ((λ page, paginatedAccounts page itemsPerPage filtered)
            <$> seqZ 1 pages) = filtered ∧
  (∀ page, 1 ≤ page ≤ pages →
     (0 < length (paginatedAccounts page itemsPerPage filtered)
        ≤ Z.to_nat itemsPerPage)%nat) ∧
  (∀ page, pages < page →
     paginatedAccounts page itemsPerPage filtered = []).
Proof.
  intros Hper pages.
  destruct (totalPages_spec (Z.of_nat (length filtered)) itemsPerPage Hper)
    as [[Hlow Hhigh] Hpages]; [lia|]. fold pages in Hlow, Hhigh, Hpages.
  split_and!.
  - transitivity (take (Z.to_nat pages * Z.to_nat itemsPerPage)%nat filtered);
      [|apply take_ge; nia].
    unfold seqZ. rewrite <- list_fmap_compose.
    rewrite <- pages_joined. f_equal. apply list_fmap_ext.
    intros i k _. simpl. rewrite paginated_take_drop by lia.
    do 2 f_equal. nia.
  - intros page Hpage. rewrite paginated_take_drop by lia.
    rewrite length_take, length_drop. nia.
  - intros page Hpage. rewrite paginated_take_drop by lia.
    rewrite drop_ge by nia. by rewrite take_nil.
Qed.

(** Twenty-five accounts on pages of ten. *)
Lemma pages_divide_the_list_witness :
  totalPages 25 10 = 3 ∧
  concat ((λ page, paginatedAccounts page 10 (seq 0 25)) <$> seqZ 1 3)
    = seq 0 25 ∧
  paginatedAccounts 4 10 (seq 0 25) = [].
Proof.
  destruct (pages_divide_the_list 10 (seq 0 25)) as (Hall & _ & Hpast); [lia|].
  split; [reflexivity|]. split; [exact Hall|]. by apply Hpast.
Defined.

End Pages.

(** ** The page bar *)

Module PageBar.
Import IAMPage.

Local Open Scope Z_scope.

(** The page numbers of a bar, in its order. *)
Definition numbers (bar : list PageItem) : list Z :=
  omap (λ item, match item with
                | Page number => Some number
                | Ellipsis => None
                end) bar.

(** Two ellipses stand side by side. *)
Fixpoint adjacent_ellipses (bar : list PageItem) : bool :=
  match bar with
  | [] => false
  | Ellipsis :: (Ellipsis :: _) => true
  | _ :: rest => adjacent_ellipses rest
  end.

(** A bar as the reader of the table expects it. *)
Definition well_formed (totalPages currentPage : Z) (bar : list PageItem)
    : Prop :=
  head bar = Some (Page 1) ∧
  last bar = Some (Page totalPages) ∧
  (length bar ≤ 7)%nat ∧
  Forall (λ number, 1 ≤ number ≤ totalPages) (numbers bar) ∧
  (∀ number, 1 ≤ number ≤ totalPages →
             currentPage - 1 ≤ number ≤ currentPage + 1 →
             number ∈ numbers bar) ∧
  StronglySorted Z.lt (numbers bar) ∧
  adjacent_ellipses bar = false.

Lemma pushed_one a b : b = a → pushed a b = [Page a].
Proof. intros ->. unfold pushed. by replace (a - a + 1) with 1 by lia. Qed.

Lemma pushed_two a b : b = a + 1 → pushed a b = [Page a; Page (a + 1)].
Proof.
  intros ->. unfold pushed. replace (a + 1 - a + 1) with 2 by lia.
  do 2 (rewrite seqZ_cons by lia). simpl.
  by replace (Z.succ a) with (a + 1) by lia.
Qed.

Lemma pushed_three a b :
  b = a + 2 → pushed a b = [Page a; Page (a + 1); Page (a + 2)].
Proof.
  intros ->. unfold pushed. replace (a + 2 - a + 1) with 3 by lia.
  do 3 (rewrite seqZ_cons by lia). simpl.
  replace (Z.succ a) with (a + 1) by lia.
  by replace (Z.succ (a + 1)) with (a + 2) by lia.
Qed.

(** Decides the comparisons of the final filter on a list of entries
    whose numbers are known up to linear arithmetic. *)
Ltac decide_pages :=
  repeat (match goal with
          | |- context [bool_decide (?a = ?b)] =>
              first
                [ rewrite (bool_decide_eq_true_2 (a = b))
                    by first [reflexivity | f_equal; lia]
                | rewrite (bool_decide_eq_false_2 (a = b))
                    by first [discriminate | intros [= ?]; lia] ]
          end; cbn [fmap option_fmap option_map negb orb]).

(** Proves that an explicit bar is well formed. *)
Ltac check_bar :=
  unfold well_formed, numbers;
  cbn [omap list_omap head last length adjacent_ellipses];
  split_and!;
  [ reflexivity
  | first [reflexivity | f_equal; f_equal; lia]
  | lia
  | repeat constructor; lia
  | intros number ? ?; rewrite !elem_of_cons, elem_of_nil; lia
  | repeat constructor; lia
  | reflexivity ].

(** The bar for more than five pages, by the place of the current
    page. *)
Lemma long_bar (t c : Z) :
  6 ≤ t → 1 ≤ c ≤ t →
  generatePageNumbers t c =
    if decide (c = 1) then [Page 1; Page 2; Ellipsis; Page t]
    else if decide (c = 2) then [Page 1; Page 2; Page 3; Ellipsis; Page t]
    else if decide (c = 3)
    then [Page 1; Page 2; Page 3; Page 4; Ellipsis; Page t]
    else if decide (c ≤ t - 3)
    then [Page 1; Ellipsis; Page (c - 1); Page c; Page (c + 1); Ellipsis; Page t]
    else if decide (c = t - 2)
    then [Page 1; Ellipsis; Page (c - 1); Page c; Page (c + 1); Page t]
    else if decide (c = t - 1)
    then [Page 1; Ellipsis; Page (c - 1); Page c; Page t]
    else [Page 1; Ellipsis; Page (c - 1); Page t].
Proof.
  intros Ht Hc. unfold generatePageNumbers, pages_listed.
  destruct (t <=? 5) eqn:E1; [apply Z.leb_le in E1; lia|].
  repeat case_decide.
  - destruct (3 <? c) eqn:E2; [apply Z.ltb_lt in E2; lia|].
    destruct (c <? t - 2) eqn:E3; [|apply Z.ltb_ge in E3; lia].
    rewrite Z.max_l, Z.min_r by lia. rewrite (pushed_one 2) by lia.
    cbn [app filter_from kept_page indexOf]. by decide_pages.
  - destruct (3 <? c) eqn:E2; [apply Z.ltb_lt in E2; lia|].
    destruct (c <? t - 2) eqn:E3; [|apply Z.ltb_ge in E3; lia].
    rewrite Z.max_l, Z.min_r by lia. rewrite (pushed_two 2) by lia.
    cbn [app filter_from kept_page indexOf]. by decide_pages.
  - destruct (3 <? c) eqn:E2; [apply Z.ltb_lt in E2; lia|].
    destruct (c <? t - 2) eqn:E3; [|apply Z.ltb_ge in E3; lia].
    rewrite Z.max_l, Z.min_r by lia. rewrite (pushed_three 2) by lia.
    cbn [app filter_from kept_page indexOf]. by decide_pages.
  - destruct (3 <? c) eqn:E2; [|apply Z.ltb_ge in E2; lia].
    destruct (c <? t - 2) eqn:E3; [|apply Z.ltb_ge in E3; lia].
    rewrite Z.max_r, Z.min_r by lia. rewrite (pushed_three (c - 1)) by lia.
    replace (c - 1 + 1) with c by lia. replace (c - 1 + 2) with (c + 1) by lia.
    cbn [app filter_from kept_page indexOf]. by decide_pages.
  - destruct (3 <? c) eqn:E2; [|apply Z.ltb_ge in E2; lia].
    destruct (c <? t - 2) eqn:E3; [apply Z.ltb_lt in E3; lia|].
    rewrite Z.max_r, Z.min_l by lia. rewrite (pushed_three (c - 1)) by lia.
    replace (c - 1 + 1) with c by lia. replace (c - 1 + 2) with (c + 1) by lia.
    cbn [app filter_from kept_page indexOf]. by decide_pages.
  - destruct (3 <? c) eqn:E2; [|apply Z.ltb_ge in E2; lia].
    destruct (c <? t - 2) eqn:E3; [apply Z.ltb_lt in E3; lia|].
    rewrite Z.max_r, Z.min_l by lia. rewrite (pushed_two (c - 1)) by lia.
    replace (c - 1 + 1) with c by lia.
    cbn [app filter_from kept_page indexOf]. by decide_pages.
  - destruct (3 <? c) eqn:E2; [|apply Z.ltb_ge in E2; lia].
    destruct (c <? t - 2) eqn:E3; [apply Z.ltb_lt in E3; lia|].
    rewrite Z.max_r, Z.min_l by lia. rewrite (pushed_one (c - 1)) by lia.
    cbn [app filter_from kept_page indexOf]. decide_pages.
    by replace c with t by lia.
Qed.

(** The bar for five pages or fewer lists them all. *)
Lemma short_bar totalPages currentPage :
  1 ≤ totalPages ≤ 5 →
  generatePageNumbers totalPages currentPage = Page <$> seqZ 1 totalPages.
Proof.
  intros Ht.
  assert (totalPages = 1 ∨ totalPages = 2 ∨ totalPages = 3 ∨ totalPages = 4
          ∨ totalPages = 5) as [->|[->|[->|[->| ->]]]] by lia; reflexivity.
Qed.

(** X6.  The page bar, for a current page among the pages, starts with page
    1 and ends with the last page; it has seven entries at most; its
    numbers are pages of the table, in increasing order and without
    repetition; the current page and the pages next to it are among
    them; and no two ellipses stand side by side. *)
Theorem page_bar_well_formed (totalPages currentPage : Z) :
  1 ≤ currentPage ≤ totalPages →
  well_formed totalPages currentPage
    (generatePageNumbers totalPages currentPage).
Proof.
  intros Hc. destruct (decide (totalPages ≤ 5)) as [Hshort|Hlong].
  - rewrite short_bar by lia.
    assert (totalPages = 1 ∨ totalPages = 2 ∨ totalPages = 3 ∨ totalPages = 4
            ∨ totalPages = 5) as [->|[->|[->|[->| ->]]]] by lia;
      match goal with
      | |- context [Page <$> seqZ 1 ?n] =>
          let bar := eval vm_compute in (Page <$> seqZ 1 n) in
          change (Page <$> seqZ 1 n) with bar
      end; check_bar.
  - rewrite long_bar by lia.
    repeat case_decide; check_bar.
Qed.

Lemma page_bar_well_formed_witness :
  generatePageNumbers 12 7 =
    [Page 1; Ellipsis; Page 6; Page 7; Page 8; Ellipsis; Page 12] ∧
  well_formed 12 7 (generatePageNumbers 12 7).
Proof.
  split; [reflexivity|]. apply (page_bar_well_formed 12 7). lia.
Defined.

End PageBar.

(** ** The filters of the IAM accounts table *)

Module Filtering.
Import JsFacts IAMPage.

(** The filters [f] with another search term. *)
Definition with_search (term : string) (f : Filters) : Filters :=
  {| searchTerm := term; statusFilter := statusFilter f;
     platformFilter := platformFilter f;
     projectAccountFilter := projectAccountFilter f |}.

Lemma filter_all {A} (keep : A → bool) (l : list A) :
  (∀ x, keep x = true) → List.filter keep l = l.
Proof.
  intros H. induction l as [|x l IH]; simpl; [done|]. by rewrite H, IH.
Qed.

Lemma same_letters_empty s t :
  HeaderCase.same_letters s t = true → is_empty t = is_empty s.
Proof. by destruct s, t. Qed.

Lemma matches_recased f term account :
  HeaderCase.same_letters (searchTerm f) term = true →
  matches (with_search term f) account = matches f account.
Proof.
  intros H. unfold matches, found_in. cbn [with_search searchTerm statusFilter
    platformFilter projectAccountFilter].
  by rewrite (same_letters_empty _ _ H), <- (HeaderCase.same_letters_lower _ _ H).
Qed.

(** X7.  With no search term and every filter on [all] the table shows all
    the accounts; the search does not depend on the letter case of the
    term; and with a status, platform or project filter set, every
    account shown has that status, platform or project. *)
Theorem filters_select (f : Filters) (iamAccounts : list IAMAccount) :
  (searchTerm f = EmptyString → statusFilter f = "all" →
   platformFilter f = "all" → projectAccountFilter f = "all" →
   filteredAccounts f iamAccounts = iamAccounts) ∧
  (∀ term, HeaderCase.same_letters (searchTerm f) term = true →
           filteredAccounts (with_search term f) iamAccounts
             = filteredAccounts f iamAccounts) ∧
  Forall (λ account,
            (statusFilter f ≠ "all" → status account = statusFilter f) ∧
            (platformFilter f ≠ "all" →
             cloudPlatform account = platformFilter f) ∧
            (projectAccountFilter f ≠ "all" →
             projectAccounts account = Some (projectAccountFilter f)))
         (filteredAccounts f iamAccounts).
Proof.
  split_and!.
  - intros Hsearch Hstatus Hplatform Hproject. apply filter_all.
    intros account. unfold matches.
    by rewrite Hsearch, Hstatus, Hplatform, Hproject.
  - intros term H. apply List.filter_ext. intros account.
    by apply matches_recased.
  - apply Forall_forall. intros account Hin.
    apply list_elem_of_In, List.filter_In in Hin as [_ Hm].
    unfold matches in Hm.
    apply andb_true_iff in Hm as [[[_ Hs]%andb_true_iff Hp]%andb_true_iff Hj].
    apply orb_true_iff in Hs as [Hs|Hs], Hp as [Hp|Hp], Hj as [Hj|Hj];
      apply String.eqb_eq in Hs, Hp;
      first [apply String.eqb_eq in Hj | apply bool_decide_eq_true in Hj];
      split_and!; intros Hne; done.
Qed.

(** Two accounts and a filter on the platform with a search term. *)
Definition kim : IAMAccount :=
  {| id := 1; requestor := "Kim"; knoxId := "k100"; permission := "read";
     durationStartDate := None; durationEndDate := None;
     cloudPlatform := "AWS"; projectAccounts := Some "dev-1";
     approvalId := None; remarks := None; status := "active";
     createdAt := "2024-01-01"; updatedAt := "2024-01-02" |}.
Definition lee : IAMAccount :=
  {| id := 2; requestor := "Lee"; knoxId := "k200"; permission := "write";
     durationStartDate := None; durationEndDate := None;
     cloudPlatform := "Azure"; projectAccounts := None;
     approvalId := Some "APV-KIM"; remarks := None; status := "expired";
     createdAt := "2024-01-01"; updatedAt := "2024-01-02" |}.
Definition kim_on_aws : Filters :=
  {| searchTerm := "kim"; statusFilter := "all"; platformFilter := "AWS";
     projectAccountFilter := "all" |}.

Lemma filters_select_witness :
  filteredAccounts kim_on_aws [kim; lee] = [kim] ∧
  filteredAccounts (with_search "KIM" kim_on_aws) [kim; lee] = [kim] ∧
  filteredAccounts (with_search EmptyString
                      {| searchTerm := EmptyString; statusFilter := "all";
                         platformFilter := "all";
                         projectAccountFilter := "all" |}) [kim; lee]
    = [kim; lee].
Proof.
  split; [reflexivity|]. split.
  - destruct (filters_select kim_on_aws [kim; lee]) as (_ & Hcase & _).
    by rewrite (Hcase "KIM").
  - by apply filters_select.
Defined.

End Filtering.

(** ** Files and the data that is sent *)

Module Files.
Import JsFacts SplitJoin FileImport.

Lemma last_split sep base ext :
  includes_char sep ext = false →
  last (split sep (base +:+ String sep ext)) = Some ext.
Proof.
  intros Hext. induction base as [|c base IH].
  - rewrite append_nil_l. simpl. rewrite Ascii.eqb_refl.
    by rewrite split_no_sep.
  - rewrite append_cons. simpl.
    pose proof (ExportShape.split_app_length sep base ext) as Hlen.
    pose proof (split_length_pos sep base).
    pose proof (split_length_pos sep ext).
    destruct (split sep (base +:+ String sep ext)) as [|x [|y l]];
      simpl in Hlen; try lia.
    by destruct (Ascii.eqb c sep).
Qed.

Lemma lower_dot c : Ascii.eqb (toLowerChar c) dot = Ascii.eqb c dot.
Proof. destruct c as [[] [] [] [] [] [] [] []]; reflexivity. Qed.

Lemma toLowerCase_app a b :
  toLowerCase (a +:+ b) = toLowerCase a +:+ toLowerCase b.
Proof.
  induction a as [|c a IH]; [done|]. rewrite append_cons. simpl.
  by rewrite IH.
Qed.

Lemma toLowerCase_no_dot s :
  includes_char dot (toLowerCase s) = includes_char dot s.
Proof.
  induction s as [|c s IH]; [done|]. simpl. by rewrite lower_dot, IH.
Qed.

(** The extension of a file name is the text after its last dot, in
    lower case, and the whole name when it has no dot. *)
Lemma fileExtension_spec base ext :
  includes_char dot ext = false →
  fileExtension (base +:+ String dot ext) = Some (toLowerCase ext) ∧
  fileExtension ext = Some (toLowerCase ext).
Proof.
  intros Hext. unfold fileExtension. split.
  - rewrite toLowerCase_app. cbn [toLowerCase].
    change (toLowerChar dot) with dot.
    apply last_split. by rewrite toLowerCase_no_dot.
  - rewrite split_no_sep; [done|]. by rewrite toLowerCase_no_dot.
Qed.

Section Schema.
Variable AssetStatus_AVAILABLE : string.
Variable AccessoryStatus : Type.
Variables AVAILABLE BORROWED RETURNED DEFECTIVE : AccessoryStatus.
Variable parseInt : string → number.

Let import := importDataFromFile AssetStatus_AVAILABLE AccessoryStatus
                AVAILABLE BORROWED RETURNED DEFECTIVE parseInt.

(** X8.  [parseFile] looks at the text after the last dot of the name only,
    whatever its letter case: a name ending in [.csv] is read, and so
    is a file whose whole name is [csv]; every other file is refused
    before it is read.  And [importDataFromFile] never sends an empty
    list: the data it returns has a record at least; for VMs the error
    [No valid data to import] is never thrown, [parseVMCSV] throwing its
    own before; and for assets the only parse error is the one for the
    missing data row. *)
Theorem files_and_data (file : File) :
  (∀ base ext,
     includes_char dot ext = false →
     (file_name file = base +:+ String dot ext ∨ file_name file = ext) →
     match parseFile file with
     | inr text => toLowerCase ext = "csv" ∧ file_text file = Some text
     | inl ReadFailed => toLowerCase ext = "csv" ∧ file_text file = None
     | inl ExcelNotSupported =>
         toLowerCase ext = "xlsx" ∨ toLowerCase ext = "xls"
     | inl UnsupportedFormat =>
         toLowerCase ext ≠ "csv" ∧ toLowerCase ext ≠ "xlsx" ∧
         toLowerCase ext ≠ "xls"
     end) ∧
  (∀ importType data,
     import file importType = inr data → 0 < data_length _ data) ∧
  import file vms ≠ inl NoValidData ∧
  (∀ e, import file assets = inl (ParseFailed e) → e = NoDataRow).
Proof.
  split_and!.
  - intros base ext Hext Hname.
    assert (fileExtension (file_name file) = Some (toLowerCase ext)) as Hx.
    { destruct (fileExtension_spec base ext Hext) as [H1 H2].
      by destruct Hname as [-> | ->]. }
    unfold parseFile. rewrite Hx.
    repeat case_bool_decide; simplify_eq; cbn [orb];
      first [ by destruct (file_text file) | by left | by right
            | split_and!; congruence ].
  - intros importType data. unfold import, importDataFromFile.
    destruct (parseFile file); [done|].
    destruct (convert _ _ _ _ _ _ _ _ _) as [d|]; [|done].
    destruct (data_length _ d =? 0) eqn:Hd; [done|].
    intros [= <-]. apply Nat.eqb_neq in Hd. lia.
  - unfold import, importDataFromFile.
    destruct (parseFile file) as [|csv]; [done|].
    unfold convert, VM.parseVMCSV.
    destruct (Strict.parse _ _ _ csv) as [records|]; [|done]. cbn.
    destruct (length records =? 0) eqn:Hl; [done|]. cbn.
    unfold Convert.convertCSVToVMs. rewrite length_map, Hl. done.
  - intros e. unfold import, importDataFromFile.
    destruct (parseFile file) as [|csv]; [done|].
    unfold convert, Asset.parseCSV.
    destruct (length (split newline csv) <? 2); cbn.
    + by intros [= <-].
    + by destruct (_ =? 0).
Qed.

End Schema.

(** A file named with capitals, and a file of VMs without rows. *)
Definition upper_file : File :=
  {| file_name := "Assets.2024.CSV";
     file_text := Some ("name" +:+ nl +:+ "Laptop 7") |}.

Lemma files_and_data_witness :
  parseFile upper_file = inr ("name" +:+ nl +:+ "Laptop 7") ∧
  toLowerCase "CSV" = "csv".
Proof.
  destruct (files_and_data "available" string "available" "borrowed"
              "returned" "defective" Converters.parse_decimal upper_file)
    as (Hfile & _).
  specialize (Hfile "Assets.2024" "CSV" eq_refl (or_introl eq_refl)).
  change (parseFile upper_file) with
    (@inr FileError string ("name" +:+ nl +:+ "Laptop 7")) in Hfile.
  split; [reflexivity|]. by destruct Hfile.
Defined.

End Files.

(** ** Export and import of IAM accounts *)

Module IAMRoundTrip.
Import JsFacts SplitJoin IAMPage.

(** A text that can stand in a cell as it is: no comma, no double
    quote, no line feed, no white space at either end. *)
Definition cell_text (s : string) : bool :=
  negb (includes_char comma s) && negb (includes_char quote s)
  && negb (includes_char newline s) && String.eqb (trim s) s.

(** The required texts of an account are not empty, and all its texts
    can stand in a cell. *)
Definition exportable (account : IAMAccount) : bool :=
  forallb (λ s, negb (is_empty s))
    [requestor account; knoxId account; permission account;
     cloudPlatform account]
  && forallb cell_text (csvRow account).

(** The object that the import builds for an exported account. *)
Definition imported (account : IAMAccount) : obj :=
  <["status" := or_else (Some (status account)) "active"]>
  (<["remarks" := or_else (remarks account) EmptyString]>
  (<["approvalId" := or_else (approvalId account) EmptyString]>
  (<["projectAccounts" := or_else (projectAccounts account) EmptyString]>
  (<["cloudPlatform" := cloudPlatform account]>
  (<["durationEndDate" := or_else (durationEndDate account) EmptyString]>
  (<["durationStartDate" := or_else (durationStartDate account) EmptyString]>
  (<["permission" := permission account]>
  (<["knoxId" := knoxId account]>
  (<["requestor" := requestor account]> {["status" := "active"]}))))))))).

(** The headers that the parser reads from an exported file. *)
Definition imported_headers : list string :=
  parse_headers (join comma csvHeaders).

Definition export_row (account : IAMAccount) : string :=
  join comma (map Convert.escape (csvRow account)).

Record cell_ok (s : string) : Prop := {
  cell_no_comma : includes_char comma s = false;
  cell_no_quote : includes_char quote s = false;
  cell_no_newline : includes_char newline s = false;
  cell_trimmed : trim s = s }.

Lemma cell_text_ok s : cell_text s = true → cell_ok s.
Proof.
  unfold cell_text. rewrite !andb_true_iff, !negb_true_iff.
  intros [[[Hc Hq] Hn] Ht]. split; try done. by apply String.eqb_eq.
Qed.

Lemma exportable_cells account :
  exportable account = true →
  Forall cell_ok (csvRow account) ∧
  requestor account ≠ EmptyString ∧ knoxId account ≠ EmptyString ∧
  permission account ≠ EmptyString ∧ cloudPlatform account ≠ EmptyString.
Proof.
  unfold exportable. intros [Hreq Hcells]%andb_true_iff. split.
  - rewrite forallb_forall in Hcells. apply Forall_forall.
    intros s Hs. apply cell_text_ok, Hcells. by apply list_elem_of_In.
  - cbn [forallb] in Hreq. rewrite !andb_true_iff, !negb_true_iff in Hreq.
    destruct Hreq as (? & ? & ? & ? & _).
    by rewrite <- !is_empty_false.
Qed.

Lemma unquote_plain s : includes_char quote s = false → unquote s = s.
Proof.
  destruct s as [|c s]; [done|]. simpl.
  intros [Hc _]%orb_false_iff. by rewrite Hc.
Qed.

Lemma trim_fixed_end s : trim s = s → trimEnd s = s.
Proof.
  intros H. rewrite <- H at 1. unfold trim.
  by rewrite Filled.trimEnd_idempotent.
Qed.

Lemma trimEnd_app a y :
  trimEnd y ≠ EmptyString → trimEnd (a +:+ y) = a +:+ trimEnd y.
Proof.
  intros Hy. induction a as [|d a IH]; [done|].
  rewrite !append_cons. cbn [trimEnd]. rewrite IH.
  destruct (a +:+ trimEnd y) eqn:Ha; [|done].
  destruct a; [|done]. by rewrite append_nil_l in Ha.
Qed.

Lemma export_row_plain account :
  exportable account = true →
  export_row account = join comma (csvRow account).
Proof.
  intros [H _]%exportable_cells. unfold export_row. f_equal.
  induction H as [|s l [Hc Hq _ _] _ IH]; [done|]. cbn [map].
  rewrite IH. f_equal. unfold Convert.escape. by rewrite Hc, Hq.
Qed.

Lemma join_snoc sep l x :
  l ≠ [] → join sep (l ++ [x])%list = join sep l +:+ String sep x.
Proof.
  induction l as [|y [|z l] IH]; [done|done|]. intros _.
  change (join sep ((y :: z :: l) ++ [x])%list) with
    (y +:+ String sep (join sep ((z :: l) ++ [x])%list)).
  rewrite IH by done.
  change (join sep (y :: z :: l)) with (y +:+ String sep (join sep (z :: l))).
  by rewrite AssetCells.append_assoc, append_cons.
Qed.

(** [trim] leaves the join of cells as it is when the first cell starts
    with a character that is not white space and the last cell has no
    white space at its end. *)
Lemma trim_join_fixed c r middle final :
  is_white_space c = false → trimEnd final = final →
  trim (join comma ((String c r :: middle) ++ [final])%list)
    = join comma ((String c r :: middle) ++ [final])%list.
Proof.
  intros Hc Hfinal. rewrite join_snoc by done.
  assert (∃ f, join comma (String c r :: middle) = String c f) as [f ->].
  { destruct middle; eexists; reflexivity. }
  rewrite append_cons. unfold trim. cbn [trimStart]. rewrite Hc.
  rewrite <- append_cons. rewrite trimEnd_app.
  - f_equal. cbn [trimEnd]. rewrite Hfinal. by destruct final.
  - cbn [trimEnd]. by destruct (trimEnd final).
Qed.

(** The cells of an exported row, as the parser reads them. *)
Lemma row_cells account :
  exportable account = true →
  trim (export_row account) = export_row account ∧
  is_empty (export_row account) = false ∧
  includes_char newline (export_row account) = false ∧
  map IAM.cell (split comma (export_row account)) = csvRow account.
Proof.
  intros H. rewrite export_row_plain by done.
  destruct (exportable_cells _ H) as (Hcells & Hr & _).
  assert (∃ c r, requestor account = String c r ∧ is_white_space c = false)
    as (c & r & Hreq & Hc).
  { apply Forall_cons in Hcells as [[_ _ _ Ht] _].
    rewrite ExportShape.or_else_some_empty in Ht.
    by apply trim_fixed_first. }
  assert (trimEnd (or_else (Some (status account)) EmptyString)
          = or_else (Some (status account)) EmptyString) as Hlast.
  { apply trim_fixed_end.
    by apply (Forall_lookup_1 _ _ 9 _ Hcells). }
  split_and!.
  - unfold csvRow in *. rewrite (ExportShape.or_else_some_empty (requestor _)).
    rewrite Hreq.
    match goal with
    | |- trim (join comma (?x :: ?c1 :: ?c2 :: ?c3 :: ?c4 :: ?c5 :: ?c6
                             :: ?c7 :: ?c8 :: [?final])) = _ =>
        change (x :: c1 :: c2 :: c3 :: c4 :: c5 :: c6 :: c7 :: c8 :: [final])
          with ((x :: [c1; c2; c3; c4; c5; c6; c7; c8]) ++ [final])%list
    end.
    by apply trim_join_fixed.
  - unfold csvRow. rewrite (ExportShape.or_else_some_empty (requestor _)), Hreq.
    done.
  - apply includes_char_join; [done|].
    eapply Forall_impl; [done|]. by intros s [].
  - rewrite split_join.
    + clear -Hcells. induction Hcells as [|s l [_ Hq _ Ht] _ IH]; [done|].
      cbn [map]. rewrite IH. f_equal. unfold IAM.cell.
      by rewrite unquote_plain.
    + done.
    + eapply Forall_impl; [done|]. by intros s [].
Qed.

Lemma assign_known (values : list string) header index property value account :
  switch IAM.header_cases header = Some property →
  values !! index = Some value →
  IAM.assign values header index account = <[property := value]> account.
Proof.
  intros Hs Hv. unfold IAM.assign.
  by rewrite Hs, Hv, ExportShape.or_else_some_empty.
Qed.

Lemma assign_status (values : list string) index value account :
  values !! index = Some value →
  IAM.assign values "status" index account =
  <["status" := or_else (Some value) "active"]> account.
Proof.
  intros Hv. unfold IAM.assign.
  change (switch IAM.header_cases "status") with (@None string).
  by rewrite Hv, ExportShape.or_else_some_empty.
Qed.

(** The account built from the cells of an exported row. *)
Lemma build_row account :
  forEach (IAM.assign (csvRow account)) imported_headers 0
    {["status" := "active"]} = imported account.
Proof.
  change imported_headers with
    [ "requestor"; "knox id"; "permission/iam/scop"; "duration start date";
      "duration end date"; "cloud platform"; "project accounts";
      "approval id"; "remarks"; "status" ].
  cbn [forEach].
  erewrite assign_status by reflexivity.
  do 9 (erewrite assign_known by reflexivity).
  unfold imported. by rewrite !ExportShape.or_else_some_empty.
Qed.

Lemma imported_complete account :
  exportable account = true → IAM.complete (imported account) = true.
Proof.
  intros (_ & Hr & Hk & Hp & Hc)%exportable_cells.
  unfold IAM.complete, get.
  assert (imported account !! "requestor" = Some (requestor account)) as ->
    by reflexivity.
  assert (imported account !! "knoxId" = Some (knoxId account)) as ->
    by reflexivity.
  assert (imported account !! "permission" = Some (permission account)) as ->
    by reflexivity.
  assert (imported account !! "cloudPlatform" = Some (cloudPlatform account))
    as -> by reflexivity.
  by destruct (requestor account), (knoxId account), (permission account),
    (cloudPlatform account).
Qed.

Lemma account_rows_exported accounts acc :
  Forall (λ account, exportable account = true) accounts →
  IAM.rows imported_headers (map export_row accounts) acc
    = (acc ++ map imported accounts)%list.
Proof.
  intros H. revert acc.
  induction H as [|account accounts Ha _ IH]; intros acc; cbn [map IAM.rows].
  - by rewrite app_nil_r.
  - destruct (row_cells account Ha) as (Htrim & Hne & _ & Hcells).
    rewrite Htrim, Hne. unfold IAM.build. rewrite Hcells, build_row.
    rewrite imported_complete by done.
    rewrite IH. by rewrite <- app_assoc.
Qed.

(** X9.  The accounts that the page exports can be imported again.  For
    every non-empty list of accounts whose requestor, Knox ID,
    permission and cloud platform are not empty and whose texts hold no
    comma, double quote or line feed and no white space at either end,
    [parseCSVData] reads from the exported text one account for each,
    with the same texts: a missing optional text is read as the empty
    string and an empty status as [active]. *)
Theorem export_import_accounts (accounts : list IAMAccount) :
  accounts ≠ [] →
  Forall (λ account, exportable account = true) accounts →
  ∃ csvContent,
    exportCSV accounts = Some csvContent ∧
    IAM.parseCSVData csvContent = Ok (map imported accounts).
Proof.
  intros Hne H. unfold exportCSV.
  destruct accounts as [|account accounts]; [done|]. cbn [length Nat.eqb].
  eexists. split; [reflexivity|]. unfold IAM.parseCSVData.
  change (map (λ a : IAMAccount, join comma (map Convert.escape (csvRow a))))
    with (map export_row).
  rewrite split_join.
  - cbn [length map Nat.ltb Nat.leb drop].
    change (parse_headers (first_line (_ :: _))) with imported_headers.
    change (export_row account :: map export_row accounts)
      with (map export_row (account :: accounts)).
    by rewrite account_rows_exported.
  - done.
  - apply Forall_cons. split; [reflexivity|].
    apply Forall_fmap. eapply Forall_impl; [done|].
    intros a Ha. by destruct (row_cells a Ha) as (_ & _ & ? & _).
Qed.

Lemma export_import_accounts_witness :
  ∃ csvContent,
    exportCSV [Filtering.kim; Filtering.lee] = Some csvContent ∧
    IAM.parseCSVData csvContent
      = Ok [imported Filtering.kim; imported Filtering.lee].
Proof.
  apply (export_import_accounts [Filtering.kim; Filtering.lee]); [done|].
  by repeat constructor.
Defined.

End IAMRoundTrip.

(** ** Rows that the IAM parser skips, and the text of the errors *)

Module Lenient.
Import JsFacts.

Lemma iam_rows_returned headers lines acc :
  IAM.rows headers lines acc =
  (acc ++ List.filter IAM.complete
            (map (λ raw, IAM.build headers (trim raw))
                 (StrictRows.kept lines)))%list.
Proof.
  revert acc. induction lines as [|raw rest IH]; intros acc; simpl.
  - by rewrite app_nil_r.
  - destruct (is_empty (trim raw)); simpl; [by apply IH|].
    destruct (IAM.complete _); [|by apply IH].
    rewrite IH. by rewrite <- app_assoc.
Qed.

Lemma prefix_append a b : String.prefix a (a +:+ b) = true.
Proof.
  induction a as [|c a IH]; [by destruct b|].
  rewrite append_cons. simpl. by destruct (Ascii.ascii_dec c c).
Qed.

(** X10.  On a file of two lines or more [parseCSVData] never throws: it
    returns the accounts of the data lines that are not empty and hold
    the four required texts, in the order of the file, and skips the
    other lines without a notice.  And the message of an error that
    names a line starts with the word [Line] and the number of that
    line. *)
Theorem skipped_rows_and_messages :
  (∀ csvContent,
     let lines := split newline csvContent in
     let headers := parse_headers (first_line lines) in
     2 ≤ length lines →
     IAM.parseCSVData csvContent =
       Ok (List.filter IAM.complete
             (map (λ raw, IAM.build headers (trim raw))
                  (StrictRows.kept (drop 1 lines))))) ∧
  (∀ e line,
     line_of e = Some line →
     String.prefix ("Line " +:+ pretty line) (message e) = true).
Proof.
  split.
  - intros csv lines headers Hlen. unfold IAM.parseCSVData. fold lines headers.
    destruct (length lines <? 2) eqn:Hlt; [apply Nat.ltb_lt in Hlt; lia|].
    by rewrite iam_rows_returned.
  - intros e line He.
    destruct e; cbn [line_of] in He; simplify_eq; cbn [message];
      rewrite <- AssetCells.append_assoc; apply prefix_append.
Qed.

(** A file whose second row lacks the Knox ID. *)
Definition partial_file : string :=
  "requestor,knoxId,permission,cloudPlatform" +:+ nl +:+
  "kim,k100,read,aws" +:+ nl +:+ "lee,,write,gcp".

Lemma skipped_rows_and_messages_witness :
  IAM.parseCSVData partial_file =
    Ok [ {[ "status" := "active"; "requestor" := "kim"; "knoxId" := "k100";
            "permission" := "read"; "cloudPlatform" := "aws" ]} ] ∧
  String.prefix "Line 3" (message (ColumnCount 3 2 3)) = true.
Proof.
  destruct skipped_rows_and_messages as [Hrows Hmessage]. split.
  - rewrite (Hrows partial_file) by (vm_compute; lia).
    reflexivity.
  - by apply (Hmessage (ColumnCount 3 2 3) 3).
Defined.

End Lenient.
